(** * ReleaseTheHounds: the ingestion orchestrator of [release_the_hounds.py]

    A shallow embedding of the script's functions ([extract_zip],
    [list_files_in_directory], [validate_json], [load_file], [main]) and
    the properties of its orchestration pipeline.

    Conventions.
    - Python [str] values are Rocq [string]s (byte strings).  Every
      separator and suffix the script looks for is ASCII, so splitting and
      suffix tests agree with Python's on UTF-8 text.
    - Python [int] is unbounded: [Z].
    - Effects (printing, the filesystem, the API client, exceptions and
      [exit()]) are threaded through the monad [M]: a computation takes the
      filesystem, and yields the events it performed, the filesystem it
      left and either a value or the exception it raised. *)

From Stdlib Require Import ZArith NArith List Bool Lia.
From Stdlib Require Import Strings.String Strings.Ascii.
Import ListNotations.

Set Warnings "-register-all".

Local Open Scope string_scope.
Local Open Scope list_scope.
Local Open Scope Z_scope.

(* ================================================================== *)
(** ** Python strings and lists *)

Module Py.

(** [s.split(sep)] for a one-character separator: never empty. *)
Fixpoint split (sep : ascii) (s : string) : list string :=
  match s with
  | EmptyString => [EmptyString]
  | String c r =>
      if Ascii.eqb c sep then EmptyString :: split sep r
      else match split sep r with
           | h :: t => String c h :: t
           | [] => [String c EmptyString]
           end
  end.

(** [s.endswith(suffix)]. *)
Definition endswith (s suffix : string) : bool :=
  let n := String.length s in
  let m := String.length suffix in
  (m <=? n)%nat && String.eqb (substring (n - m) m s) suffix.

(** [s.startswith(prefix)]. *)
Definition startswith (s pre : string) : bool := String.prefix pre s.

(** [needle in haystack] on two [str]: substring containment. *)
Definition str_contains (haystack needle : string) : bool :=
  match String.index 0 needle haystack with
  | Some _ => true
  | None => false
  end.

(** Truthiness of an optional [str] attribute of the argparse namespace:
    [None] and the empty string are false. *)
Definition truthy (o : option string) : bool :=
  match o with
  | Some (String _ _) => true
  | _ => false
  end.

(** [os.path.join(a, b)] (posixpath). *)
Definition path_join (a b : string) : string :=
  if startswith b "/" then b
  else if String.eqb a EmptyString || endswith a "/" then a ++ b
  else a ++ "/" ++ b.

End Py.

(* ================================================================== *)
(** ** Documents: what [json.load] returns *)

Inductive json : Type :=
| JNull
| JBool (b : bool)
| JInt (z : Z)
| JFloat (repr : string)
| JStr (s : string)
| JArr (items : list json)
| JObj (members : list (string * json)).

(** The keys of an object document. *)
Definition keys (members : list (string * json)) : list string :=
  map fst members.

(** The document exposes the top-level member [k]. *)
Definition has_member (d : json) (k : string) : Prop :=
  match d with
  | JObj members => In k (keys members)
  | _ => False
  end.

Definition is_str (k : string) (d : json) : bool :=
  match d with JStr s => String.eqb s k | _ => false end.

(* ================================================================== *)
(** ** Exceptions, events and the effect monad *)

Inductive exn : Type :=
| SystemExit (code : option Z)
| IndexError
| TypeError
| FileNotFoundError
| OSError
| UnicodeDecodeError
| JSONDecodeError
| BadZipFile
| RuntimeError
| ClientError.

Inductive result (A : Type) : Type :=
| Ok (a : A)
| Raise (e : exn).
Arguments Ok {A} a.
Arguments Raise {A} e.

(** [open(filename, 'r')] against [open(filename, 'r', encoding='utf-8-sig')]. *)
Inductive encoding : Type := EncDefault | EncUtf8Sig.

Record Credentials : Type := mkCredentials {
  token_id : string;
  token_key : string
}.

Record Client : Type := mkClient {
  scheme : string;
  host : string;
  port : string;
  credentials : Credentials
}.

Record VersionInfo : Type := mkVersion {
  api_version : string;
  server_version : string
}.

Inductive event : Type :=
| Print (line : string)
| GetVersion (c : Client)
| ZipOpen (filename : string)
| ZipExtractAll (filename : string)
| Walk (directory : string)
| OpenFile (filename : string) (enc : encoding)
| Submit (c : Client) (doc : json) (num_objs_in_chunk num_chunks_per_job : Z).

Definition bytes : Type := list N.

(** The regular files of the filesystem, by path; the first binding of a
    path is the current one. *)
Definition FS : Type := list (string * bytes).

Fixpoint fs_read (fs : FS) (path : string) : option bytes :=
  match fs with
  | [] => None
  | (p, b) :: rest => if String.eqb p path then Some b else fs_read rest path
  end.

Definition fs_write (fs : FS) (path : string) (b : bytes) : FS :=
  (path, b) :: fs.

Definition M (A : Type) : Type := FS -> list event * FS * result A.

Definition ret {A} (a : A) : M A := fun fs => ([], fs, Ok a).

Definition bind {A B} (m : M A) (k : A -> M B) : M B :=
  fun fs =>
    match m fs with
    | (t1, fs1, Ok a) =>
        match k a fs1 with
        | (t2, fs2, r) => (t1 ++ t2, fs2, r)
        end
    | (t1, fs1, Raise e) => (t1, fs1, Raise e)
    end.

Notation "x <- m ;; k" := (bind m (fun x => k))
  (at level 61, m at next level, right associativity).
Notation "m ;;; k" := (bind m (fun _ => k))
  (at level 61, right associativity).

Definition raise {A} (e : exn) : M A := fun fs => ([], fs, Raise e).
Definition emit (e : event) : M unit := fun fs => ([e], fs, Ok tt).
Definition print (line : string) : M unit := emit (Print line).
Definition get_fs : M FS := fun fs => ([], fs, Ok fs).
Definition put_fs (fs' : FS) : M unit := fun _ => ([], fs', Ok tt).

(** [try: m  except <catches>: handler]. *)
Definition try_except {A} (m : M A) (catches : exn -> bool) (handler : M A) : M A :=
  fun fs =>
    match m fs with
    | (t1, fs1, Ok a) => (t1, fs1, Ok a)
    | (t1, fs1, Raise e) =>
        if catches e then
          match handler fs1 with
          | (t2, fs2, r) => (t1 ++ t2, fs2, r)
          end
        else (t1, fs1, Raise e)
    end.

(** A bare [except:] catches everything. *)
Definition any_exn (e : exn) : bool := true.

Definition is_FileNotFoundError (e : exn) : bool :=
  match e with FileNotFoundError => true | _ => false end.

(** The builtin [exit()]: raises [SystemExit] with the given code. *)
Definition exit {A} (code : option Z) : M A := raise (SystemExit code).

(** [xs[i]] for a non-negative index. *)
Definition index {A} (xs : list A) (i : nat) : M A :=
  match nth_error xs i with
  | Some x => ret x
  | None => raise IndexError
  end.

(** [for x in xs: body x]. *)
Fixpoint for_each {A} (xs : list A) (body : A -> M unit) : M unit :=
  match xs with
  | [] => ret tt
  | x :: rest => body x ;;; for_each rest body
  end.

Definition trace_of {A} (r : list event * FS * result A) : list event := fst (fst r).
Definition fs_of {A} (r : list event * FS * result A) : FS := snd (fst r).
Definition outcome_of {A} (r : list event * FS * result A) : result A := snd r.

(** The status the interpreter ends the process with: [SystemExit] with no
    code or code 0 is a success, every other uncaught exception is not. *)
Definition exit_status {A} (r : result A) : Z :=
  match r with
  | Ok _ => 0
  | Raise (SystemExit None) => 0
  | Raise (SystemExit (Some c)) => c
  | Raise _ => 1
  end.

(* ================================================================== *)
(** ** [validate_json] *)

(** [key in json_data]: membership in the keys of a dict, in the items of a
    list, containment in a str; any other value is not iterable. *)
Definition contains (json_data : json) (key : string) : M bool :=
  match json_data with
  | JObj members => ret (existsb (String.eqb key) (keys members))
  | JArr items => ret (existsb (is_str key) items)
  | JStr s => ret (Py.str_contains s key)
  | _ => raise TypeError
  end.

(** [all(key in json_data for key in ks)]: lazy, stops at the first false. *)
Fixpoint all_keys_in (json_data : json) (ks : list string) : M bool :=
  match ks with
  | [] => ret true
  | key :: rest =>
      b <- contains json_data key ;;
      if b then all_keys_in json_data rest else ret false
  end.

(** The double-quote character of the diagnostic text. *)
Definition dq : string := String (ascii_of_nat 34) EmptyString.

Definition validate_diagnostic : list string :=
  [ "[-] This data does not look like valid BloodHound data! Troubleshoot ideas:";
    "    -> Did you use the most recent collector?";
    ("    -> Are you using " ++ dq ++ "data" ++ dq ++ " as the key for objects (old collectors used "
      ++ dq ++ "computers" ++ dq ++ ", " ++ dq ++ "users" ++ dq ++ ", etc.)")%string;
    "    -> Check out https://support.bloodhoundenterprise.io/hc/en-us/articles/17303881735963-BloodHound-JSON-Formats" ].

Definition checking_line : string := "[*] Checking if the data is valid".

Definition validate_json (json_data : json) : M bool :=
  print checking_line ;;;
  ok <- all_keys_in json_data ["data"; "meta"] ;;
  if ok then ret true
  else for_each validate_diagnostic print ;;; ret false.

(* ================================================================== *)
(** ** Text decoding *)

Local Open Scope N_scope.

Definition cont (b : N) : bool := (0x80 <=? b) && (b <=? 0xBF).

(** Strict UTF-8: shortest forms only, no surrogates, at most U+10FFFF. *)
Fixpoint utf8_decode (bs : bytes) : option (list N) :=
  match bs with
  | [] => Some []
  | b0 :: r0 =>
      if b0 <? 0x80 then option_map (cons b0) (utf8_decode r0)
      else if (0xC2 <=? b0) && (b0 <=? 0xDF) then
        match r0 with
        | b1 :: r1 =>
            if cont b1
            then option_map (cons ((b0 - 0xC0) * 64 + (b1 - 0x80))) (utf8_decode r1)
            else None
        | _ => None
        end
      else if (0xE0 <=? b0) && (b0 <=? 0xEF) then
        match r0 with
        | b1 :: b2 :: r2 =>
            let cp := (b0 - 0xE0) * 4096 + (b1 - 0x80) * 64 + (b2 - 0x80) in
            if cont b1 && cont b2 && (0x800 <=? cp)
               && negb ((0xD800 <=? cp) && (cp <=? 0xDFFF))
            then option_map (cons cp) (utf8_decode r2)
            else None
        | _ => None
        end
      else if (0xF0 <=? b0) && (b0 <=? 0xF4) then
        match r0 with
        | b1 :: b2 :: b3 :: r3 =>
            let cp := (b0 - 0xF0) * 262144 + (b1 - 0x80) * 4096
                      + (b2 - 0x80) * 64 + (b3 - 0x80) in
            if cont b1 && cont b2 && cont b3 && (0x10000 <=? cp) && (cp <=? 0x10FFFF)
            then option_map (cons cp) (utf8_decode r3)
            else None
        | _ => None
        end
      else None
  end.

(** The byte-order marker, encoded, and the character it encodes. *)
Definition bom : bytes := [0xEF; 0xBB; 0xBF].
Definition bom_char : N := 0xFEFF.

(** The [utf-8-sig] codec: UTF-8 after skipping one leading marker. *)
Definition utf8_sig_decode (bs : bytes) : option (list N) :=
  match bs with
  | 0xEF :: 0xBB :: 0xBF :: rest => utf8_decode rest
  | _ => utf8_decode bs
  end.

(** Codecs that decode byte by byte. *)
Fixpoint decode_bytewise (char : N -> option N) (bs : bytes) : option (list N) :=
  match bs with
  | [] => Some []
  | b :: r =>
      match char b with
      | Some c => option_map (cons c) (decode_bytewise char r)
      | None => None
      end
  end.

(** The [ascii] codec: bytes above 0x7F are refused. *)
Definition ascii_char (b : N) : option N := if b <? 0x80 then Some b else None.
Definition ascii_decode : bytes -> option (list N) := decode_bytewise ascii_char.

(** The [cp1252] codec: the characters of the bytes 0x80 to 0x9F, five of
    which are undefined; the bytes from 0xA0 on are the characters of the
    same number. *)
Definition cp1252_high : list (option N) :=
  [ Some 0x20AC; None;        Some 0x201A; Some 0x0192;
    Some 0x201E; Some 0x2026; Some 0x2020; Some 0x2021;
    Some 0x02C6; Some 0x2030; Some 0x0160; Some 0x2039;
    Some 0x0152; None;        Some 0x017D; None;
    None;        Some 0x2018; Some 0x2019; Some 0x201C;
    Some 0x201D; Some 0x2022; Some 0x2013; Some 0x2014;
    Some 0x02DC; Some 0x2122; Some 0x0161; Some 0x203A;
    Some 0x0153; None;        Some 0x017E; Some 0x0178 ].

Definition cp1252_char (b : N) : option N :=
  if b <? 0x80 then Some b
  else if b <? 0xA0 then nth (N.to_nat (b - 0x80)) cp1252_high None
  else if b <? 0x100 then Some b
  else None.

Definition cp1252_decode : bytes -> option (list N) := decode_bytewise cp1252_char.

(** The whitespace of JSON: space, tab, line feed, carriage return. *)
Definition json_whitespace (c : N) : bool :=
  (c =? 0x20) || (c =? 0x09) || (c =? 0x0A) || (c =? 0x0D).

Fixpoint skip_whitespace (text : list N) : list N :=
  match text with
  | c :: rest => if json_whitespace c then skip_whitespace rest else text
  | [] => []
  end.

(** The characters a JSON value can start with, as the scanner of the
    [json] module dispatches on them: a quote, a brace, a bracket, the
    first letter of [null], [true], [false], [NaN] and [Infinity], a minus
    sign or a digit. *)
Definition value_start (c : N) : bool :=
  (c =? 0x22) || (c =? 0x7B) || (c =? 0x5B)
  || (c =? 0x6E) || (c =? 0x74) || (c =? 0x66)
  || (c =? 0x4E) || (c =? 0x49) || (c =? 0x2D)
  || ((0x30 <=? c) && (c <=? 0x39)).

Local Close Scope N_scope.

(* ================================================================== *)
(** ** The environment of a run *)

(** What the extraction of a member does. *)
Inductive zip_payload : Type :=
| ZFile (data : bytes)        (* it extracts to a regular file *)
| ZDir                        (* a directory entry *)
| ZBroken                     (* it cannot be opened for reading (encrypted,
                                 no password): nothing is written *)
| ZCorrupt (written : bytes). (* its data fail the CRC check: the target is
                                 created or truncated, holds what was copied
                                 before the check, and extraction raises *)

(** An archive as [zipfile] sees it: its members in the order of the
    central directory. *)
Definition archive : Type := list (string * zip_payload).

(** The components [zipfile] drops from a member name before extraction:
    empty ones (a leading or a doubled [/]), [.] and [..]. *)
Definition invalid_path_part (x : string) : bool :=
  String.eqb x EmptyString || String.eqb x "." || String.eqb x "..".

(** The path, under the current working directory, at which [extractall]
    writes a member (posix). *)
Definition sanitize (filename : string) : string :=
  String.concat "/"
    (filter (fun x => negb (invalid_path_part x)) (Py.split "/" filename)).

Definition target (m : string * zip_payload) : string := sanitize (fst m).

(** A directory as [os.scandir] sees it: the names of its entries that are
    not directories, and its sub-directories; a sub-directory that cannot
    be listed has no tree. *)
Inductive tree : Type :=
| Node (files : list string) (subdirs : list (string * option tree)).

(** What the script reaches outside itself.  [api_info] is the dict of
    [constants.py]; [get_version] and [chunk_and_submit_data] are the
    methods of the [Client] of [api.py] ([None] and [false]: the call
    raises); [zip_at] is what [zipfile.ZipFile(filename, 'r')] finds;
    [dir_at] is what [os.scandir] finds; [decode_default] is the codec of
    the platform's default text encoding; [json_decode] is the JSON
    decoder. *)
Record World : Type := mkWorld {
  api_info : string -> string;
  get_version : Client -> option VersionInfo;
  chunk_and_submit_data : Client -> json -> Z -> Z -> bool;
  zip_at : string -> option archive;
  dir_at : string -> option tree;
  decode_default : bytes -> option (list N);
  json_decode : list N -> option json
}.

(** The namespace [parse_args] returns.  [--chunkobjects] and
    [--chunksinjob] have [type=int] and a default: always an int. *)
Record Args : Type := mkArgs {
  location : string;
  url : option string;
  tokenkey : option string;
  tokenid : option string;
  chunkobjects : Z;
  chunksinjob : Z
}.

Definition nl : string := String (ascii_of_nat 10) EmptyString.

(** The banner text, after Python has processed the escapes of the literal. *)
Definition banner_lines : list string :=
  [ EmptyString;
    EmptyString;
    "          __________       .__                                  ";
    "          \______   \ ____ |  |   ____ _____    ______ ____   ";
    "           |       __/ __ \|  | _/ __ \__  \  /  ____/ __ \  ";
    "           |    |   \  ___/|  |_\  ___/ / __ \_\___ \  ___/  ";
    "           |____|_  /\___  |____/\___  (____  /____  >\___  > ";
    "                  \/     \/          \/     \/     \/     \/  ";
    "      __  .__               ___ ___                         .___      ";
    "    _/  |_|  |__   ____    /   |   \  ____  __ __  ____   __| _/______";
    "    \   __|  |  \_/ __ \  /    ~    \/  _ \|  |  \/    \ / __ |/  ___/";
    "     |  | |   Y  \  ___/  \    Y    (  <_> |  |  |   |  / /_/ |\___ \ ";
    "     |__| |___|  /\___  >  \___|_  / \____/|____/|___|  \____ /____  >";
    "               \/     \/         \/                   \/     \/    \/ ";
    EmptyString;
    "    " ].

Definition banner_text : string := String.concat nl banner_lines.

Definition banner : M unit := print banner_text.

(* ================================================================== *)
(** ** The script's functions *)

Section Script.

Variable W : World.

(** *** [zipfile] *)

(** [zipfile.ZipFile(filename, 'r')]. *)
Definition zip_open (filename : string) : M archive :=
  emit (ZipOpen filename) ;;;
  match zip_at W filename with
  | Some zip_ref => ret zip_ref
  | None => raise BadZipFile
  end.

(** [open(targetpath, "wb")] and the copy of [written] into it; a member
    whose name has no valid component has the working directory itself as
    target, which cannot be opened for writing. *)
Definition write_target (m : string * zip_payload) (written : bytes) : M unit :=
  if String.eqb (target m) EmptyString then raise OSError
  else fs <- get_fs ;; put_fs (fs_write fs (target m) written).

(** Extraction of one member into the current working directory. *)
Definition extract_member (m : string * zip_payload) : M unit :=
  match snd m with
  | ZFile data => write_target m data
  | ZDir => ret tt
  | ZBroken => raise RuntimeError
  | ZCorrupt written => write_target m written ;;; raise BadZipFile
  end.

(** [zip_ref.extractall()]: member after member, in order. *)
Definition extractall (filename : string) (zip_ref : archive) : M unit :=
  emit (ZipExtractAll filename) ;;;
  for_each zip_ref extract_member.

(** [zip_ref.namelist()]. *)
Definition namelist (zip_ref : archive) : list string := map fst zip_ref.

Definition zip_diagnostic (filename : string) : string :=
  "Error extracting JSON data from zip: " ++ filename
  ++ " may not be a valid zip file.".

Definition extract_zip (filename : string) : M (list string) :=
  let extracted_files : list string := [] in
  try_except
    (zip_ref <- zip_open filename ;;
     extractall filename zip_ref ;;;
     ret (namelist zip_ref))
    any_exn
    (print (zip_diagnostic filename) ;;;
     ret extracted_files).

(** *** [os.walk] *)

Definition walk_entry : Type := (string * list string * list string)%type.

(** [os.walk(top)], top-down, on a directory that could be listed. *)
Fixpoint walk_tree (root : string) (t : tree) : list walk_entry :=
  match t with
  | Node files subdirs =>
      (root, map fst subdirs, files) ::
      (fix walk_subdirs (ds : list (string * option tree)) : list walk_entry :=
         match ds with
         | [] => []
         | (d, Some sub) :: rest =>
             walk_tree (Py.path_join root d) sub ++ walk_subdirs rest
         | (d, None) :: rest => walk_subdirs rest
         end) subdirs
  end.

(** [os.walk(top)] with its default [onerror=None]: an error of
    [os.scandir] (a missing directory, a path that is not a directory) is
    ignored and the walk of that directory yields nothing. *)
Definition os_walk (top : string) : M (list walk_entry) :=
  emit (Walk top) ;;;
  ret (match dir_at W top with
       | Some t => walk_tree top t
       | None => []
       end).

(** The two nested [for] loops of [list_files_in_directory]. *)
Definition collect_json (walked : list walk_entry) (file_list : list string)
  : list string :=
  fold_left
    (fun file_list (entry : walk_entry) =>
       let '(root, dirs, files) := entry in
       fold_left
         (fun file_list file =>
            if Py.endswith file ".json"
            then file_list ++ [Py.path_join root file]
            else file_list)
         files file_list)
    walked file_list.

Definition dir_diagnostic (directory : string) : string :=
  "Error: Directory '" ++ directory ++ "' not found.".

Definition list_files_in_directory (directory : string) : M (list string) :=
  let file_list : list string := [] in
  try_except
    (walked <- os_walk directory ;;
     ret (collect_json walked file_list))
    is_FileNotFoundError
    (print (dir_diagnostic directory) ;;;
     ret file_list).

(** *** [load_file] *)

Definition decode (enc : encoding) (b : bytes) : option (list N) :=
  match enc with
  | EncDefault => decode_default W b
  | EncUtf8Sig => utf8_sig_decode b
  end.

(** [open(filename, 'r', ...)] followed by [f.read()]. *)
Definition open_read (filename : string) (enc : encoding) : M (list N) :=
  emit (OpenFile filename enc) ;;;
  fs <- get_fs ;;
  match fs_read fs filename with
  | None => raise FileNotFoundError
  | Some b =>
      match decode enc b with
      | Some text => ret text
      | None => raise UnicodeDecodeError
      end
  end.

(** [json.loads]: a [str] that starts with U+FEFF is refused before the
    decoder sees it; the decoder skips the leading whitespace and expects a
    value, which must start with one of the characters of [value_start].
    (The script names [json] without importing it: the module reaches it
    through the star import of [api].) *)
Definition json_loads (text : list N) : M json :=
  match text with
  | c :: _ =>
      if N.eqb c bom_char then raise JSONDecodeError
      else
        match skip_whitespace text with
        | c' :: _ =>
            if value_start c' then
              match json_decode W text with
              | Some d => ret d
              | None => raise JSONDecodeError
              end
            else raise JSONDecodeError
        | [] => raise JSONDecodeError
        end
  | [] => raise JSONDecodeError
  end.

(** [with open(...) as f: json.load(f)]. *)
Definition json_load (filename : string) (enc : encoding) : M json :=
  text <- open_read filename enc ;;
  json_loads text.

Definition load_file (filename : string) : M json :=
  try_except
    (json_load filename EncDefault)
    any_exn
    (json_load filename EncUtf8Sig).

(** *** The client of [api.py] *)

Definition client_get_version (client : Client) : M VersionInfo :=
  emit (GetVersion client) ;;;
  match get_version W client with
  | Some version => ret version
  | None => raise ClientError
  end.

Definition client_chunk_and_submit_data (client : Client) (data_to_chunk : json)
    (num_objs_in_chunk num_chunks_per_job : Z) : M unit :=
  emit (Submit client data_to_chunk num_objs_in_chunk num_chunks_per_job) ;;;
  if chunk_and_submit_data W client data_to_chunk num_objs_in_chunk num_chunks_per_job
  then ret tt
  else raise ClientError.

(** *** [main] *)

Definition url_usage : string :=
  "[*] URL parameter must include protocol scheme and port. Example: https://bloodhound.absalom.org:443".

Definition testing_line : string :=
  "[*] Testing credentials by getting API version ...".

Definition auth_failed : string :=
  "[-] Failed to authenticate to the target API. Exiting ...".

Definition str_of (o : option string) : string :=
  match o with Some s => s | None => EmptyString end.

Record Endpoint : Type := mkEndpoint {
  BHCE_DOMAIN : string;
  BHCE_PORT : string;
  BHCE_SCHEME : string
}.

(** Lines 115-125 of [main]: the endpoint from [--url] or the defaults. *)
Definition resolve_url (args : Args) : M Endpoint :=
  if Py.truthy (url args) then
    let u := str_of (url args) in
    (if negb (Nat.eqb (List.length (Py.split ":" u)) 3)
     then print url_usage ;;; exit None
     else ret tt) ;;;
    seg1 <- index (Py.split ":" u) 1 ;;
    domain <- index (Py.split "/" seg1) 2 ;;
    port <- index (Py.split ":" u) 2 ;;
    scheme <- index (Py.split ":" u) 0 ;;
    ret (mkEndpoint domain port scheme)
  else
    ret (mkEndpoint (api_info W "BHCE_DOMAIN") (api_info W "BHCE_PORT")
                    (api_info W "BHCE_SCHEME")).

(** Lines 107-114 of [main]: the token pair. *)
Definition resolve_credentials (args : Args) : Credentials :=
  let BHCE_TOKEN_ID :=
    if Py.truthy (tokenid args) then str_of (tokenid args)
    else api_info W "BHCE_TOKEN_ID" in
  let BHCE_TOKEN_KEY :=
    if Py.truthy (tokenkey args) then str_of (tokenkey args)
    else api_info W "BHCE_TOKEN_KEY" in
  mkCredentials BHCE_TOKEN_ID BHCE_TOKEN_KEY.

(** [x if x else d] on an int. *)
Definition or_default (x d : Z) : Z := if Z.eqb x 0 then d else x.

(** Lines 141-147: the credential test. *)
Definition test_credentials (client : Client) : M unit :=
  print testing_line ;;;
  try_except
    (version <- client_get_version client ;;
     print ("[+] Successfully authenticated to the API! Version: "
            ++ api_version version ++ " - Server version: "
            ++ server_version version) ;;;
     print EmptyString)
    any_exn
    (print auth_failed ;;; exit None).

Definition loading_line (f : string) : string :=
  "[*] LOADING SHARPHOUND DATA FILE: " ++ f ++ " -->".

(** Line 151: archive or directory. *)
Definition discover (loc : string) : M (list string) :=
  if Py.endswith loc ".zip" then extract_zip loc
  else list_files_in_directory loc.

(** Lines 152-155: the body of the loop over the files. *)
Definition process_file (client : Client) (chunk_object_count num_chunks_per_job : Z)
    (f : string) : M unit :=
  print (loading_line f) ;;;
  bhjson <- load_file f ;;
  client_chunk_and_submit_data client bhjson chunk_object_count num_chunks_per_job.

Definition main (args : Args) : M unit :=
  let credentials := resolve_credentials args in
  ep <- resolve_url args ;;
  let chunk_object_count := or_default (chunkobjects args) 250 in
  let num_chunks_per_job := or_default (chunksinjob args) 50 in
  banner ;;;
  print "<#######################################################################>" ;;;
  print "<-=-=-=-=-=-=-=-=- Initiating the BloodHound CE client -=-=-=-=-=-=-=-=->" ;;;
  print ("[*] Connecting to: " ++ BHCE_SCHEME ep ++ "://" ++ BHCE_DOMAIN ep
         ++ ":" ++ BHCE_PORT ep) ;;;
  let client := mkClient (BHCE_SCHEME ep) (BHCE_DOMAIN ep) (BHCE_PORT ep) credentials in
  test_credentials client ;;;
  files <- discover (location args) ;;
  for_each files (process_file client chunk_object_count num_chunks_per_job).

End Script.

(* ================================================================== *)
(** ** Vocabulary of the properties *)

(** The character [c] does not occur in [s]. *)
Fixpoint no_char (c : ascii) (s : string) : bool :=
  match s with
  | EmptyString => true
  | String x r => negb (Ascii.eqb x c) && no_char c r
  end.

(** Events that reach the network: the calls of the client's methods. *)
Definition is_network (e : event) : bool :=
  match e with
  | GetVersion _ | Submit _ _ _ _ => true
  | _ => false
  end.

(** Events that load or submit a file. *)
Definition is_file_event (e : event) : bool :=
  match e with
  | OpenFile _ _ | Submit _ _ _ _ => true
  | _ => false
  end.

(** The documents submitted, in the order of submission. *)
Fixpoint submitted (t : list event) : list json :=
  match t with
  | [] => []
  | Submit _ doc _ _ :: rest => doc :: submitted rest
  | _ :: rest => submitted rest
  end.

(** The chunking parameters of every submission. *)
Fixpoint submitted_with (t : list event) : list (Z * Z) :=
  match t with
  | [] => []
  | Submit _ _ c j :: rest => (c, j) :: submitted_with rest
  | _ :: rest => submitted_with rest
  end.

(** The filesystem after the members of an archive have been written, one
    after the other. *)
Definition extracted (zip_ref : archive) (fs : FS) : FS :=
  fold_left
    (fun fs (m : string * zip_payload) =>
       match snd m with
       | ZFile data => fs_write fs (target m) data
       | _ => fs
       end)
    zip_ref fs.

(** The members whose extraction does not raise: directory entries, and
    file members that have a target. *)
Definition extractable (m : string * zip_payload) : bool :=
  match snd m with
  | ZFile _ => negb (String.eqb (target m) EmptyString)
  | ZDir => true
  | ZBroken | ZCorrupt _ => false
  end.



(** What the member that makes extraction raise leaves behind: the target
    of a member with corrupt data, created or truncated. *)
Definition truncated_target (m : string * zip_payload) (fs : FS) : FS :=
  match snd m with
  | ZCorrupt written =>
      if String.eqb (target m) EmptyString then fs
      else fs_write fs (target m) written
  | _ => fs
  end.

(** A codec that keeps what is outside ASCII outside ASCII: bytes that
    start above 0x7F never decode to a text that is empty or starts with an
    ASCII character.  UTF-8, [ascii], [cp1252] and the other default
    encodings of a platform are such codecs; [utf-8-sig] is not. *)
Definition ascii_compatible (decode : bytes -> option (list N)) : Prop :=
  forall (c : N) (rest : bytes) (text : list N),
    (0x80 <= c)%N ->
    decode (c :: rest) = Some text ->
    exists c' text', text = c' :: text' /\ (0x80 <= c')%N.

(** The walk of a directory, or nothing when it cannot be listed. *)
Definition walked_from (W : World) (top : string) : list walk_entry :=
  match dir_at W top with
  | Some t => walk_tree top t
  | None => []
  end.

(** The paths of the [.json] files that a walk lists. *)
Definition json_paths (walked : list walk_entry) : list string :=
  flat_map
    (fun entry : walk_entry =>
       let '(root, dirs, files) := entry in
       map (Py.path_join root) (filter (fun file => Py.endswith file ".json") files))
    walked.

(** The document a decoded text parses to, if any. *)
Definition parses (W : World) (text : list N) : option json :=
  match text with
  | c :: _ =>
      if N.eqb c bom_char then None
      else
        match skip_whitespace text with
        | c' :: _ => if value_start c' then json_decode W text else None
        | [] => None
        end
  | [] => None
  end.

(** The outcome of one attempt at reading [filename] as JSON. *)
Definition attempt (W : World) (fs : FS) (filename : string) (enc : encoding)
  : result json :=
  outcome_of (json_load W filename enc fs).

(** The outcome of [load_file]. *)
Definition loaded (W : World) (fs : FS) (filename : string) : result json :=
  outcome_of (load_file W filename fs).

Definition succeeded {A} (r : result A) : bool :=
  match r with Ok _ => true | Raise _ => false end.

(** What [main] prints between the resolution of the endpoint and the
    credential test. *)
Definition preamble (ep : Endpoint) : list event :=
  [ Print banner_text;
    Print "<#######################################################################>";
    Print "<-=-=-=-=-=-=-=-=- Initiating the BloodHound CE client -=-=-=-=-=-=-=-=->";
    Print ("[*] Connecting to: " ++ BHCE_SCHEME ep ++ "://" ++ BHCE_DOMAIN ep
           ++ ":" ++ BHCE_PORT ep) ].

Definition probe_ok (client : Client) (version : VersionInfo) : list event :=
  [ Print testing_line;
    GetVersion client;
    Print ("[+] Successfully authenticated to the API! Version: "
           ++ api_version version ++ " - Server version: "
           ++ server_version version);
    Print EmptyString ].

Definition probe_failed (client : Client) : list event :=
  [ Print testing_line; GetVersion client; Print auth_failed ].

(** The client [main] builds once the endpoint is known. *)
Definition client_of (W : World) (args : Args) (ep : Endpoint) : Client :=
  mkClient (BHCE_SCHEME ep) (BHCE_DOMAIN ep) (BHCE_PORT ep)
           (resolve_credentials W args).

(** The loop of [main] over the discovered files. *)
Definition process_files (W : World) (args : Args) (ep : Endpoint)
    (files : list string) : M unit :=
  for_each files
    (process_file W (client_of W args ep)
       (or_default (chunkobjects args) 250) (or_default (chunksinjob args) 50)).

(** The [open] calls of [load_file]: one when the first attempt succeeds,
    two otherwise. *)
Definition opens (W : World) (fs : FS) (f : string) : list event :=
  match attempt W fs f EncDefault with
  | Ok _ => [OpenFile f EncDefault]
  | Raise _ => [OpenFile f EncDefault; OpenFile f EncUtf8Sig]
  end.

(** The outcome of one turn of the loop. *)
Definition file_outcome (W : World) (client : Client) (c j : Z) (fs : FS)
    (f : string) : result unit :=
  match loaded W fs f with
  | Ok d => if chunk_and_submit_data W client d c j then Ok tt else Raise ClientError
  | Raise e => Raise e
  end.

(** The events of one turn of the loop: the announcement, the [open]
    calls, and the submission of the document when there is one. *)
Definition file_events (W : World) (client : Client) (c j : Z) (fs : FS)
    (f : string) : list event :=
  Print (loading_line f) :: opens W fs f
  ++ match loaded W fs f with
     | Ok d => [Submit client d c j]
     | Raise _ => []
     end.

(** The files the loop reaches: up to and including the first one whose
    turn raises. *)
Fixpoint reached (out : string -> result unit) (files : list string)
  : list string :=
  match files with
  | [] => []
  | f :: rest => f :: (if succeeded (out f) then reached out rest else [])
  end.

(** The outcome of the loop: the first exception, if any. *)
Fixpoint loop_outcome (out : string -> result unit) (files : list string)
  : result unit :=
  match files with
  | [] => Ok tt
  | f :: rest =>
      match out f with
      | Ok _ => loop_outcome out rest
      | Raise e => Raise e
      end
  end.

(** The [open] calls and the submission of one turn of the loop. *)
Definition file_io (W : World) (client : Client) (c j : Z) (fs : FS)
    (f : string) : list event :=
  opens W fs f
  ++ match loaded W fs f with
     | Ok d => [Submit client d c j]
     | Raise _ => []
     end.

(** The documents that load from a list of files, in order. *)
Definition docs_of (W : World) (fs : FS) (files : list string) : list json :=
  flat_map
    (fun f => match loaded W fs f with Ok d => [d] | Raise _ => [] end)
    files.

(** A small environment for examples: defaults from [constants.py], a
    server that accepts the credentials and every submission, one archive
    [data.zip] and one directory [data], UTF-8 as the default encoding and
    a decoder that knows the empty object [{}] only. *)
Definition example_world : World :=
  mkWorld
    (fun key => ("<" ++ key ++ ">")%string)
    (fun _ => Some (mkVersion "v2" "5.0.0"))
    (fun _ _ _ _ => true)
    (fun filename =>
       if String.eqb filename "data.zip"
       then Some [("users.json", ZFile [123; 125]%N); ("groups.json", ZFile [123; 125]%N)]
       else if String.eqb filename "locked.zip"
       then Some [("users.json", ZFile [123; 125]%N); ("secret.json", ZBroken)]
       else None)
    (fun directory =>
       if String.eqb directory "data"
       then Some (Node ["a.json"; "notes.txt"; "b.JSON"]
                       [("sub", Some (Node ["c.json"] [])); ("locked", None)])
       else None)
    utf8_decode
    (fun text => match text with
                 | [123; 125]%N => Some (JObj [])
                 | _ => None
                 end).

(** The same environment with a server that refuses the credentials. *)
Definition offline_world : World :=
  mkWorld (api_info example_world) (fun _ => None)
    (chunk_and_submit_data example_world) (zip_at example_world)
    (dir_at example_world) (decode_default example_world)
    (json_decode example_world).

Definition example_args (loc : string) (u : option string) (c j : Z) : Args :=
  mkArgs loc u None None c j.

(** The example environment on a platform whose default encoding is
    [cp1252], and on one whose default encoding is [ascii]. *)
Definition cp1252_world : World :=
  mkWorld (api_info example_world) (get_version example_world)
    (chunk_and_submit_data example_world) (zip_at example_world)
    (dir_at example_world) cp1252_decode (json_decode example_world).

Definition ascii_world : World :=
  mkWorld (api_info example_world) (get_version example_world)
    (chunk_and_submit_data example_world) (zip_at example_world)
    (dir_at example_world) ascii_decode (json_decode example_world).


(** The example environment with a client that raises on every
    submission. *)
Definition refusing_world : World :=
  mkWorld (api_info example_world) (get_version example_world)
    (fun _ _ _ _ => false) (zip_at example_world)
    (dir_at example_world) (decode_default example_world)
    (json_decode example_world).

(** The number of occurrences of [c] in [s]. *)
Fixpoint count_char (c : ascii) (s : string) : nat :=
  match s with
  | EmptyString => 0%nat
  | String x r => ((if Ascii.eqb x c then 1 else 0) + count_char c r)%nat
  end.

Definition is_get_version (e : event) : bool :=
  match e with GetVersion _ => true | _ => false end.

(** Documents that are neither an object, nor an array, nor a string. *)
Definition scalar (d : json) : bool :=
  match d with
  | JNull | JBool _ | JInt _ | JFloat _ => true
  | _ => false
  end.

(** The members of an archive that come before the first one that cannot
    be extracted. *)
Fixpoint extractable_prefix (zip_ref : archive) : archive :=
  match zip_ref with
  | [] => []
  | m :: rest => if extractable m then m :: extractable_prefix rest else []
  end.

(* ================================================================== *)
(** * Properties *)

(** ** Helper lemmas *)

Lemma bind_ret_l {A B} (a : A) (k : A -> M B) (fs : FS) :
  bind (ret a) k fs = k a fs.
Proof. unfold bind, ret. now destruct (k a fs) as [[t2 fs2] r]. Qed.

Lemma bind_ok {A B} (m : M A) (k : A -> M B) (fs fs1 fs2 : FS)
    (t1 t2 : list event) (a : A) (r : result B) :
  m fs = (t1, fs1, Ok a) -> k a fs1 = (t2, fs2, r) ->
  bind m k fs = (t1 ++ t2, fs2, r).
Proof. intros Hm Hk. unfold bind. now rewrite Hm, Hk. Qed.

Lemma bind_raise {A B} (m : M A) (k : A -> M B) (fs fs1 : FS)
    (t1 : list event) (e : exn) :
  m fs = (t1, fs1, Raise e) -> bind m k fs = (t1, fs1, Raise e).
Proof. intros Hm. unfold bind. now rewrite Hm. Qed.

Lemma bind_emit {B} (e : event) (k : unit -> M B) (fs : FS) :
  bind (emit e) k fs
  = (e :: trace_of (k tt fs), fs_of (k tt fs), outcome_of (k tt fs)).
Proof. unfold bind, emit. now destruct (k tt fs) as [[t2 fs2] r]. Qed.

Lemma index_some {A} (xs : list A) (i : nat) (x : A) :
  nth_error xs i = Some x -> index xs i = ret x.
Proof. intros H. unfold index. now rewrite H. Qed.

Lemma existsb_eqb_In (k : string) (l : list string) :
  existsb (String.eqb k) l = true <-> In k l.
Proof.
  rewrite existsb_exists. split.
  - intros [x [Hin Heq]]. apply String.eqb_eq in Heq. now subst.
  - intros Hin. exists k. split; [assumption | apply String.eqb_refl].
Qed.

Lemma contains_object (members : list (string * json)) (k : string) (fs : FS) :
  contains (JObj members) k fs
  = ([], fs, Ok (existsb (String.eqb k) (keys members))).
Proof. reflexivity. Qed.

Lemma all_keys_in_object (members : list (string * json)) (fs : FS) :
  all_keys_in (JObj members) ["data"; "meta"] fs
  = ([], fs, Ok (existsb (String.eqb "data") (keys members)
                 && existsb (String.eqb "meta") (keys members))).
Proof.
  cbn [all_keys_in]. unfold bind. rewrite contains_object.
  destruct (existsb (String.eqb "data") (keys members)); [|reflexivity].
  rewrite contains_object.
  destruct (existsb (String.eqb "meta") (keys members)); reflexivity.
Qed.

(** ** C9: the structural validator *)

(** C9 (amended).  For every document that is a JSON object, validation
    returns (it raises nothing and leaves the filesystem alone), it returns
    true iff the object has both top-level members [data] and [meta], and
    when it returns false it has printed the diagnostic after the
    announcement line. *)
Theorem validate_json_object (members : list (string * json)) (fs : FS) :
  exists b : bool,
    outcome_of (validate_json (JObj members) fs) = Ok b
    /\ fs_of (validate_json (JObj members) fs) = fs
    /\ (b = true <->
        has_member (JObj members) "data" /\ has_member (JObj members) "meta")
    /\ (b = true ->
        trace_of (validate_json (JObj members) fs) = [Print checking_line])
    /\ (b = false ->
        trace_of (validate_json (JObj members) fs)
        = Print checking_line :: map Print validate_diagnostic).
Proof.
  unfold validate_json, bind, print, emit.
  rewrite all_keys_in_object.
  pose proof (existsb_eqb_In "data" (keys members)) as Hd.
  pose proof (existsb_eqb_In "meta" (keys members)) as Hm.
  simpl has_member.
  destruct (existsb (String.eqb "data") (keys members)) eqn:Ed;
    [destruct (existsb (String.eqb "meta") (keys members)) eqn:Em|].
  - exists true. cbn. repeat split; try tauto; try discriminate.
  - exists false. cbn. repeat split; try discriminate; try tauto.
  - exists false. cbn. repeat split; try discriminate; try tauto.
Qed.

(** C9 as stated fails on documents that are not objects: on a number the
    membership test raises [TypeError]; on an array holding the two strings
    it answers true although the document has no member at all. *)
Lemma validate_json_not_object :
  outcome_of (validate_json (JInt 5) []) = Raise TypeError
  /\ outcome_of (validate_json (JArr [JStr "data"; JStr "meta"]) []) = Ok true
  /\ ~ has_member (JArr [JStr "data"; JStr "meta"]) "data".
Proof.
  split; [reflexivity | split; [reflexivity | intros H; exact H]].
Qed.

(** The four documents of the specification's examples. *)
Example validate_json_examples :
  outcome_of (validate_json (JObj [("data", JArr []); ("meta", JObj [])]) []) = Ok true
  /\ outcome_of (validate_json (JObj [("data", JArr [])]) []) = Ok false
  /\ outcome_of (validate_json (JObj [("meta", JObj [])]) []) = Ok false
  /\ outcome_of (validate_json (JObj []) []) = Ok false.
Proof. repeat split. Qed.

(** ** C1: the URL override *)

Lemma split_no_char (c : ascii) (s : string) :
  no_char c s = true -> Py.split c s = [s].
Proof.
  induction s as [|x r IH]; cbn; [reflexivity|].
  intros H. apply andb_prop in H as [Hx Hr].
  apply negb_true_iff in Hx. rewrite Hx, (IH Hr). reflexivity.
Qed.

Lemma split_app (c : ascii) (a b : string) :
  no_char c a = true ->
  Py.split c (a ++ String c b) = a :: Py.split c b.
Proof.
  induction a as [|x r IH]; cbn.
  - intros _. now rewrite Ascii.eqb_refl.
  - intros H. apply andb_prop in H as [Hx Hr].
    apply negb_true_iff in Hx. rewrite Hx, (IH Hr). reflexivity.
Qed.

Lemma no_char_app (c : ascii) (a b : string) :
  no_char c (a ++ b) = no_char c a && no_char c b.
Proof.
  induction a as [|x r IH]; cbn; [reflexivity|].
  now rewrite IH, andb_assoc.
Qed.

(** The segments of a string of the shape [scheme://host:port]. *)
Lemma split_url (s h p : string) :
  no_char ":" s = true -> no_char ":" h = true -> no_char ":" p = true ->
  Py.split ":" (s ++ "://" ++ h ++ ":" ++ p) = [s; ("//" ++ h)%string; p].
Proof.
  intros Hs Hh Hp.
  change (s ++ "://" ++ h ++ ":" ++ p)%string
    with (s ++ String ":" (("//" ++ h) ++ String ":" p))%string.
  rewrite (split_app ":" s) by assumption.
  rewrite (split_app ":" ("//" ++ h)) by (cbn; exact Hh).
  now rewrite split_no_char.
Qed.

Lemma split_slashes_host (h : string) :
  no_char "/" h = true -> Py.split "/" ("//" ++ h) = [EmptyString; EmptyString; h].
Proof.
  intros Hh. cbn. now rewrite split_no_char.
Qed.

Lemma resolve_url_three (W : World) (args : Args) (u s m p h : string) (fs : FS) :
  url args = Some u ->
  Py.split ":" u = [s; m; p] ->
  nth_error (Py.split "/" m) 2 = Some h ->
  resolve_url W args fs = ([], fs, Ok (mkEndpoint h p s)).
Proof.
  intros Hu Hsplit Hhost.
  assert (Ht : Py.truthy (url args) = true).
  { rewrite Hu. destruct u; [discriminate Hsplit | reflexivity]. }
  unfold resolve_url. rewrite Ht, Hu. cbn [str_of].
  rewrite Hsplit. cbn [List.length Nat.eqb negb].
  rewrite bind_ret_l.
  rewrite (index_some [s; m; p] 1 m eq_refl), bind_ret_l.
  rewrite (index_some _ 2 h Hhost), bind_ret_l.
  rewrite (index_some [s; m; p] 2 p eq_refl), bind_ret_l.
  rewrite (index_some [s; m; p] 0 s eq_refl), bind_ret_l.
  reflexivity.
Qed.

Lemma resolve_url_other (W : World) (args : Args) (u : string) (fs : FS) :
  url args = Some u ->
  u <> EmptyString ->
  List.length (Py.split ":" u) <> 3%nat ->
  resolve_url W args fs = ([Print url_usage], fs, Raise (SystemExit None)).
Proof.
  intros Hu Hne Hlen.
  assert (Ht : Py.truthy (url args) = true).
  { rewrite Hu. destruct u; [contradiction | reflexivity]. }
  unfold resolve_url. rewrite Ht, Hu. cbn [str_of].
  apply Nat.eqb_neq in Hlen. rewrite Hlen. reflexivity.
Qed.

Lemma resolve_url_empty (W : World) (args : Args) (fs : FS) :
  url args = Some EmptyString ->
  resolve_url W args fs
  = ([], fs, Ok (mkEndpoint (api_info W "BHCE_DOMAIN") (api_info W "BHCE_PORT")
                            (api_info W "BHCE_SCHEME"))).
Proof. intros Hu. unfold resolve_url. now rewrite Hu. Qed.

Lemma main_url_refused (W : World) (args : Args) (u : string) (fs : FS) :
  url args = Some u ->
  u <> EmptyString ->
  List.length (Py.split ":" u) <> 3%nat ->
  main W args fs = ([Print url_usage], fs, Raise (SystemExit None)).
Proof.
  intros Hu Hne Hlen. unfold main, bind at 1.
  now rewrite (resolve_url_other W args u fs).
Qed.

(** C1 (amended).  For every URL override.  When it is not empty and
    splitting it on [:] yields exactly three segments of which the second,
    split on [/], has a third piece, resolution succeeds without any event,
    with the first segment as scheme, that piece as host and the third
    segment as port; in particular a string [scheme://host:port] resolves
    to its scheme, host and port.  When it is not empty and splitting
    yields any other number of segments, the run prints the corrective
    message and exits, and that message is the only event of the run: no
    network call.  When it is empty it counts as absent and the defaults
    are the endpoint. *)
Theorem resolve_url_shape (W : World) (args : Args) (u : string) (fs : FS) :
  url args = Some u ->
  (u <> EmptyString ->
   forall s m p h,
     Py.split ":" u = [s; m; p] ->
     nth_error (Py.split "/" m) 2 = Some h ->
     resolve_url W args fs = ([], fs, Ok (mkEndpoint h p s)))
  /\ (forall s h p,
      u = (s ++ "://" ++ h ++ ":" ++ p)%string ->
      no_char ":" s = true -> no_char ":" h = true -> no_char "/" h = true ->
      no_char ":" p = true ->
      resolve_url W args fs = ([], fs, Ok (mkEndpoint h p s)))
  /\ (u <> EmptyString ->
      List.length (Py.split ":" u) <> 3%nat ->
      main W args fs = ([Print url_usage], fs, Raise (SystemExit None))
      /\ existsb is_network (trace_of (main W args fs)) = false)
  /\ (u = EmptyString ->
      resolve_url W args fs
      = ([], fs, Ok (mkEndpoint (api_info W "BHCE_DOMAIN") (api_info W "BHCE_PORT")
                                (api_info W "BHCE_SCHEME")))).
Proof.
  intros Hu. split; [|split; [|split]].
  - intros _ s m p h Hsplit Hhost.
    now apply resolve_url_three with (u := u) (m := m).
  - intros s h p -> Hs Hh Hslash Hp.
    apply resolve_url_three
      with (u := (s ++ "://" ++ h ++ ":" ++ p)%string) (m := ("//" ++ h)%string).
    + assumption.
    + now apply split_url.
    + now rewrite split_slashes_host.
  - intros Hne Hlen.
    pose proof (main_url_refused W args u fs Hu Hne Hlen) as E.
    split; [exact E | now rewrite E].
  - intros ->. now apply resolve_url_empty.
Qed.

Lemma resolve_url_shape_witness :
  resolve_url example_world
    (example_args "data" (Some "https://bloodhound.absalom.org:443") 250 50) []
  = ([], [], Ok (mkEndpoint "bloodhound.absalom.org" "443" "https")).
Proof.
  exact (proj1 (proj2 (resolve_url_shape example_world
           (example_args "data" (Some "https://bloodhound.absalom.org:443") 250 50)
           "https://bloodhound.absalom.org:443" [] eq_refl))
         "https" "bloodhound.absalom.org" "443" eq_refl eq_refl eq_refl eq_refl eq_refl).
Defined.

(** C1 as stated fails at both ends: [a:b:c] splits into three segments
    and resolution raises [IndexError], the second segment having no third
    piece; the empty override splits into one segment and resolution
    succeeds with the defaults, the override being taken as absent. *)
Lemma resolve_url_unexpected :
  (List.length (Py.split ":" "a:b:c") = 3%nat
   /\ resolve_url example_world (example_args "data" (Some "a:b:c") 250 50) []
      = ([], [], Raise IndexError))
  /\ (List.length (Py.split ":" EmptyString) <> 3%nat
      /\ resolve_url example_world (example_args "data" (Some EmptyString) 250 50) []
         = ([], [], Ok (mkEndpoint "<BHCE_DOMAIN>" "<BHCE_PORT>" "<BHCE_SCHEME>"))).
Proof.
  repeat split. cbn. discriminate.
Qed.

(** ** The shape of a run *)

Lemma json_load_shape (W : World) (f : string) (enc : encoding) (fs : FS) :
  json_load W f enc fs = ([OpenFile f enc], fs, attempt W fs f enc).
Proof.
  unfold attempt, json_load, open_read, json_loads, outcome_of.
  unfold bind, emit, get_fs, ret, raise.
  destruct (fs_read fs f) as [b|]; [|reflexivity].
  destruct (decode W enc b) as [[|c text]|]; try reflexivity.
  destruct (N.eqb c bom_char); [reflexivity|].
  destruct (skip_whitespace (c :: text)) as [|c' rest]; [reflexivity|].
  destruct (value_start c'); [|reflexivity].
  destruct (json_decode W (c :: text)); reflexivity.
Qed.

Lemma load_file_shape (W : World) (f : string) (fs : FS) :
  load_file W f fs
  = match attempt W fs f EncDefault with
    | Ok d => ([OpenFile f EncDefault], fs, Ok d)
    | Raise _ =>
        ([OpenFile f EncDefault; OpenFile f EncUtf8Sig], fs,
         attempt W fs f EncUtf8Sig)
    end.
Proof.
  unfold load_file, try_except. rewrite !json_load_shape.
  destruct (attempt W fs f EncDefault); reflexivity.
Qed.

Lemma load_file_fs (W : World) (f : string) (fs : FS) :
  fs_of (load_file W f fs) = fs.
Proof.
  rewrite load_file_shape. destruct (attempt W fs f EncDefault); reflexivity.
Qed.

Lemma test_credentials_shape (W : World) (client : Client) (fs : FS) :
  test_credentials W client fs
  = match get_version W client with
    | Some version => (probe_ok client version, fs, Ok tt)
    | None => (probe_failed client, fs, Raise (SystemExit None))
    end.
Proof.
  unfold test_credentials, try_except, client_get_version, print.
  unfold bind, emit, ret, raise, exit, raise.
  destruct (get_version W client); reflexivity.
Qed.

Lemma resolve_url_cases (W : World) (args : Args) (fs : FS) :
  (exists ep, resolve_url W args fs = ([], fs, Ok ep))
  \/ resolve_url W args fs = ([], fs, Raise IndexError)
  \/ resolve_url W args fs = ([Print url_usage], fs, Raise (SystemExit None)).
Proof.
  unfold resolve_url.
  destruct (Py.truthy (url args)); [|left; eexists; reflexivity].
  destruct (Nat.eqb (List.length (Py.split ":" (str_of (url args)))) 3);
    [|right; right; reflexivity].
  cbn [negb]. rewrite bind_ret_l.
  unfold index.
  destruct (nth_error (Py.split ":" (str_of (url args))) 1) as [seg1|];
    [rewrite bind_ret_l | right; left; reflexivity].
  destruct (nth_error (Py.split "/" seg1) 2) as [domain|];
    [rewrite bind_ret_l | right; left; reflexivity].
  destruct (nth_error (Py.split ":" (str_of (url args))) 2) as [port|];
    [rewrite bind_ret_l | right; left; reflexivity].
  destruct (nth_error (Py.split ":" (str_of (url args))) 0) as [scheme|];
    [rewrite bind_ret_l | right; left; reflexivity].
  left. eexists. reflexivity.
Qed.

Lemma bind_silent {A B} (m : M A) (k : A -> M B) (fs fs1 : FS) (a : A) :
  m fs = ([], fs1, Ok a) -> bind m k fs = k a fs1.
Proof.
  intros Hm. unfold bind. rewrite Hm. now destruct (k a fs1) as [[t2 fs2] r].
Qed.

Lemma extract_member_ok (m : string * zip_payload) (fs : FS) :
  extractable m = true ->
  extract_member m fs
  = ([],
     match snd m with ZFile data => fs_write fs (target m) data | _ => fs end,
     Ok tt).
Proof.
  destruct m as [name payload]. unfold extractable, extract_member, write_target.
  cbn [snd]. destruct payload; try discriminate; try reflexivity.
  destruct (String.eqb (target (name, ZFile data)) EmptyString);
    [discriminate | reflexivity].
Qed.

Lemma extract_member_fails (m : string * zip_payload) (fs : FS) :
  extractable m = false ->
  exists e, extract_member m fs = ([], truncated_target m fs, Raise e).
Proof.
  destruct m as [name payload].
  unfold extractable, extract_member, write_target, truncated_target.
  cbn [snd]. destruct payload; try discriminate.
  - destruct (String.eqb (target (name, ZFile data)) EmptyString);
      [intros _; eexists; reflexivity | discriminate].
  - intros _. eexists. reflexivity.
  - intros _.
    destruct (String.eqb (target (name, ZCorrupt written)) EmptyString);
      eexists; reflexivity.
Qed.

Lemma extract_members_trace (zip_ref : archive) (fs : FS) :
  trace_of (for_each zip_ref extract_member fs) = [].
Proof.
  revert fs. induction zip_ref as [|m rest IH]; intros fs; [reflexivity|].
  cbn [for_each]. destruct (extractable m) eqn:Hm.
  - rewrite (bind_silent _ _ _ _ _ (extract_member_ok m fs Hm)). apply IH.
  - destruct (extract_member_fails m fs Hm) as [e He].
    now rewrite (bind_raise _ _ _ _ _ _ He).
Qed.

Lemma extract_members_ok (zip_ref : archive) (fs : FS) :
  forallb extractable zip_ref = true ->
  for_each zip_ref extract_member fs = ([], extracted zip_ref fs, Ok tt).
Proof.
  revert fs. induction zip_ref as [|m rest IH]; intros fs H; [reflexivity|].
  cbn [forallb] in H. apply andb_prop in H as [Hm Hrest].
  cbn [for_each]. rewrite (bind_silent _ _ _ _ _ (extract_member_ok m fs Hm)).
  unfold extracted. cbn [fold_left]. now apply IH.
Qed.

Lemma extract_members_broken (zip_ref : archive) (fs : FS) :
  forallb extractable zip_ref = false ->
  exists e, outcome_of (for_each zip_ref extract_member fs) = Raise e.
Proof.
  revert fs. induction zip_ref as [|m rest IH]; intros fs H; [discriminate H|].
  cbn [forallb] in H. cbn [for_each]. destruct (extractable m) eqn:Hm.
  - rewrite (bind_silent _ _ _ _ _ (extract_member_ok m fs Hm)). now apply IH.
  - destruct (extract_member_fails m fs Hm) as [e He].
    exists e. now rewrite (bind_raise _ _ _ _ _ _ He).
Qed.

Lemma extract_zip_shape (W : World) (filename : string) (fs : FS) :
  extract_zip W filename fs
  = match zip_at W filename with
    | None => ([ZipOpen filename; Print (zip_diagnostic filename)], fs, Ok [])
    | Some zip_ref =>
        if forallb extractable zip_ref
        then ([ZipOpen filename; ZipExtractAll filename],
              extracted zip_ref fs, Ok (namelist zip_ref))
        else ([ZipOpen filename; ZipExtractAll filename;
               Print (zip_diagnostic filename)],
              fs_of (for_each zip_ref extract_member fs), Ok [])
    end.
Proof.
  unfold extract_zip, try_except, zip_open, extractall, print.
  unfold bind at 1 2. unfold emit at 1.
  destruct (zip_at W filename) as [zip_ref|]; [|reflexivity].
  cbn [ret app]. unfold bind at 1. unfold bind at 1. unfold emit at 1.
  destruct (forallb extractable zip_ref) eqn:E.
  - rewrite (extract_members_ok _ _ E). reflexivity.
  - destruct (extract_members_broken zip_ref fs E) as [e Hr].
    pose proof (extract_members_trace zip_ref fs) as Ht.
    destruct (for_each zip_ref extract_member fs) as [[t f'] r].
    cbn in Hr, Ht. subst. reflexivity.
Qed.

Lemma fold_collect_files (root : string) (files acc : list string) :
  fold_left
    (fun file_list file =>
       if Py.endswith file ".json"
       then file_list ++ [Py.path_join root file]
       else file_list)
    files acc
  = acc ++ map (Py.path_join root)
             (filter (fun file => Py.endswith file ".json") files).
Proof.
  revert acc. induction files as [|file rest IH]; intros acc; cbn.
  - now rewrite app_nil_r.
  - rewrite IH. destruct (Py.endswith file ".json"); [|reflexivity].
    cbn. now rewrite <- app_assoc.
Qed.

Lemma collect_json_paths (walked : list walk_entry) (acc : list string) :
  collect_json walked acc = acc ++ json_paths walked.
Proof.
  revert acc. induction walked as [|[[root dirs] files] rest IH]; intros acc.
  - cbn. now rewrite app_nil_r.
  - unfold collect_json in *. cbn [fold_left]. rewrite IH.
    rewrite fold_collect_files. cbn [json_paths flat_map].
    now rewrite <- app_assoc.
Qed.

Lemma list_files_shape (W : World) (directory : string) (fs : FS) :
  list_files_in_directory W directory fs
  = ([Walk directory], fs, Ok (json_paths (walked_from W directory))).
Proof.
  unfold list_files_in_directory, try_except, os_walk, bind, emit, ret.
  cbn. rewrite collect_json_paths. reflexivity.
Qed.

Lemma discover_total (W : World) (loc : string) (fs : FS) :
  exists td fs' files, discover W loc fs = (td, fs', Ok files).
Proof.
  unfold discover. destruct (Py.endswith loc ".zip").
  - rewrite extract_zip_shape.
    destruct (zip_at W loc) as [zip_ref|]; [|repeat eexists].
    destruct (forallb extractable zip_ref); repeat eexists.
  - rewrite list_files_shape. repeat eexists.
Qed.

Lemma client_submit_shape (W : World) (client : Client) (d : json) (c j : Z)
    (fs : FS) :
  client_chunk_and_submit_data W client d c j fs
  = ([Submit client d c j], fs,
     if chunk_and_submit_data W client d c j then Ok tt else Raise ClientError).
Proof.
  unfold client_chunk_and_submit_data, bind, emit, ret, raise.
  destruct (chunk_and_submit_data W client d c j); reflexivity.
Qed.

Lemma process_file_shape (W : World) (client : Client) (c j : Z) (f : string)
    (fs : FS) :
  process_file W client c j f fs
  = (file_events W client c j fs f, fs, file_outcome W client c j fs f).
Proof.
  unfold process_file, print. rewrite bind_emit.
  unfold file_events, file_outcome, loaded, opens.
  pose proof (load_file_shape W f fs) as Hl.
  destruct (attempt W fs f EncDefault) as [d|e].
  - rewrite (bind_ok _ _ _ _ _ _ _ _ _ Hl (client_submit_shape W client d c j fs)).
    rewrite Hl. reflexivity.
  - destruct (attempt W fs f EncUtf8Sig) as [d|e'].
    + rewrite (bind_ok _ _ _ _ _ _ _ _ _ Hl (client_submit_shape W client d c j fs)).
      rewrite Hl. reflexivity.
    + rewrite (bind_raise _ _ _ _ _ _ Hl). rewrite Hl. reflexivity.
Qed.

Lemma for_each_process_shape (W : World) (client : Client) (c j : Z)
    (files : list string) (fs : FS) :
  for_each files (process_file W client c j) fs
  = (flat_map (file_events W client c j fs)
       (reached (file_outcome W client c j fs) files),
     fs,
     loop_outcome (file_outcome W client c j fs) files).
Proof.
  induction files as [|f rest IH]; [reflexivity|].
  cbn [for_each reached loop_outcome flat_map].
  unfold bind. rewrite process_file_shape.
  destruct (file_outcome W client c j fs f) as [[]|e].
  - rewrite IH. reflexivity.
  - cbn. now rewrite app_nil_r.
Qed.

Lemma reached_prefix (out : string -> result unit) (files : list string) :
  exists k, (k <= List.length files)%nat /\ reached out files = firstn k files.
Proof.
  induction files as [|f rest [k [Hk IH]]].
  - exists 0%nat. split; [apply Nat.le_refl | reflexivity].
  - cbn [reached]. destruct (succeeded (out f)).
    + exists (S k). cbn. split; [lia | now rewrite IH].
    + exists 1%nat. cbn. split; [lia | reflexivity].
Qed.

Lemma reached_all (out : string -> result unit) (files : list string) :
  loop_outcome out files = Ok tt -> reached out files = files.
Proof.
  induction files as [|f rest IH]; [reflexivity|].
  cbn. destruct (out f) as [[]|e]; [|discriminate].
  intros H. cbn. now rewrite IH.
Qed.

(** The four ways a run can go: the URL override is refused; its second
    segment has no host and [IndexError] escapes; the credential test
    fails; or the files are discovered and processed in turn. *)
Lemma main_cases (W : World) (args : Args) (fs : FS) :
  main W args fs = ([Print url_usage], fs, Raise (SystemExit None))
  \/ main W args fs = ([], fs, Raise IndexError)
  \/ (exists ep,
        resolve_url W args fs = ([], fs, Ok ep)
        /\ get_version W (client_of W args ep) = None
        /\ main W args fs
           = (preamble ep ++ probe_failed (client_of W args ep), fs,
              Raise (SystemExit None)))
  \/ (exists ep version td fs' files,
        resolve_url W args fs = ([], fs, Ok ep)
        /\ get_version W (client_of W args ep) = Some version
        /\ discover W (location args) fs = (td, fs', Ok files)
        /\ main W args fs
           = (preamble ep ++ probe_ok (client_of W args ep) version ++ td
              ++ trace_of (process_files W args ep files fs'),
              fs',
              outcome_of (process_files W args ep files fs'))).
Proof.
  destruct (resolve_url_cases W args fs) as [[ep Hep] | [Hix | Hexit]].
  - unfold main. rewrite (bind_silent _ _ _ _ _ Hep).
    unfold banner, print. rewrite !bind_emit.
    fold (client_of W args ep).
    destruct (get_version W (client_of W args ep)) as [version|] eqn:Hv.
    + right; right; right.
      destruct (discover_total W (location args) fs) as [td [fs' [files Hd]]].
      exists ep, version, td, fs', files.
      repeat (split; [assumption|]).
      unfold bind. rewrite test_credentials_shape, Hv, Hd.
      fold (process_files W args ep files).
      unfold process_files. rewrite for_each_process_shape. reflexivity.
    + right; right; left. exists ep.
      repeat (split; [assumption|]).
      unfold bind. rewrite test_credentials_shape, Hv. reflexivity.
  - right; left. unfold main. now rewrite (bind_raise _ _ _ _ _ _ Hix).
  - left. unfold main. now rewrite (bind_raise _ _ _ _ _ _ Hexit).
Qed.

Lemma main_shape_resolved (W : World) (args : Args) (fs : FS) (ep : Endpoint) :
  resolve_url W args fs = ([], fs, Ok ep) ->
  main W args fs
  = match get_version W (client_of W args ep) with
    | None =>
        (preamble ep ++ probe_failed (client_of W args ep), fs,
         Raise (SystemExit None))
    | Some version =>
        (preamble ep ++ probe_ok (client_of W args ep) version
         ++ trace_of (discover W (location args) fs)
         ++ trace_of (process_files W args ep
                        (match outcome_of (discover W (location args) fs) with
                         | Ok files => files
                         | Raise _ => []
                         end)
                        (fs_of (discover W (location args) fs))),
         fs_of (discover W (location args) fs),
         outcome_of (process_files W args ep
                       (match outcome_of (discover W (location args) fs) with
                        | Ok files => files
                        | Raise _ => []
                        end)
                       (fs_of (discover W (location args) fs))))
    end.
Proof.
  intros Hep.
  destruct (main_cases W args fs)
    as [E | [E | [[ep' [Hep' [Hv' E]]]
                 | [ep' [v [td [fs' [files [Hep' [Hv' [Hd E]]]]]]]]]]].
  - unfold main in E. rewrite (bind_silent _ _ _ _ _ Hep) in E.
    unfold banner, print in E. rewrite bind_emit in E. discriminate E.
  - unfold main in E. rewrite (bind_silent _ _ _ _ _ Hep) in E.
    unfold banner, print in E. rewrite bind_emit in E. discriminate E.
  - rewrite Hep in Hep'. injection Hep' as <-. now rewrite Hv'.
  - rewrite Hep in Hep'. injection Hep' as <-. rewrite Hv', Hd. exact E.
Qed.

(** ** Which events occur where *)

Lemma discover_events (W : World) (loc : string) (fs : FS) (e : event) :
  In e (trace_of (discover W loc fs)) ->
  (Py.endswith loc ".zip" = true
   /\ (e = ZipOpen loc \/ e = ZipExtractAll loc \/ e = Print (zip_diagnostic loc)))
  \/ (Py.endswith loc ".zip" = false /\ e = Walk loc).
Proof.
  unfold discover. destruct (Py.endswith loc ".zip").
  - rewrite extract_zip_shape. intros H. left. split; [reflexivity|].
    destruct (zip_at W loc) as [zip_ref|];
      [destruct (forallb extractable zip_ref)|];
      cbn [trace_of fst In] in H; intuition auto.
  - rewrite list_files_shape. intros H. right. split; [reflexivity|].
    cbn [trace_of fst In] in H. intuition auto.
Qed.

Lemma discover_events_of (W : World) (loc : string) (fs fs' : FS)
    (td : list event) (r : result (list string)) (e : event) :
  discover W loc fs = (td, fs', r) ->
  In e td ->
  (Py.endswith loc ".zip" = true
   /\ (e = ZipOpen loc \/ e = ZipExtractAll loc \/ e = Print (zip_diagnostic loc)))
  \/ (Py.endswith loc ".zip" = false /\ e = Walk loc).
Proof.
  intros Hd H. apply (discover_events W loc fs). now rewrite Hd.
Qed.

(** An event of the discovery step, in [H], is none of the other kinds. *)
Ltac discovery_event H Hd :=
  apply (discover_events_of _ _ _ _ _ _ _ Hd) in H.

Lemma opens_events (W : World) (fs : FS) (f : string) (e : event) :
  In e (opens W fs f) -> e = OpenFile f EncDefault \/ e = OpenFile f EncUtf8Sig.
Proof.
  unfold opens. destruct (attempt W fs f EncDefault); cbn [In]; intuition auto.
Qed.

Lemma file_events_cases (W : World) (client : Client) (c j : Z) (fs : FS)
    (f : string) (e : event) :
  In e (file_events W client c j fs f) ->
  e = Print (loading_line f)
  \/ e = OpenFile f EncDefault \/ e = OpenFile f EncUtf8Sig
  \/ (exists d, loaded W fs f = Ok d /\ e = Submit client d c j).
Proof.
  unfold file_events. cbn [In]. intros [H|H]; [now left|].
  apply in_app_or in H as [H|H].
  - apply opens_events in H. tauto.
  - destruct (loaded W fs f) as [d|]; [|contradiction H].
    destruct H as [H|[]]. right; right; right. now exists d.
Qed.

Lemma loop_events (W : World) (client : Client) (c j : Z) (fs : FS)
    (files : list string) (e : event) :
  In e (trace_of (for_each files (process_file W client c j) fs)) ->
  exists f, In f files /\
    (e = Print (loading_line f)
     \/ e = OpenFile f EncDefault \/ e = OpenFile f EncUtf8Sig
     \/ (exists d, loaded W fs f = Ok d /\ e = Submit client d c j)).
Proof.
  rewrite for_each_process_shape. cbn [trace_of fst].
  intros H. apply in_flat_map in H as [f [Hf He]].
  exists f. split; [|now apply file_events_cases in He].
  destruct (reached_prefix (file_outcome W client c j fs) files) as [k [_ Hk]].
  rewrite Hk in Hf. revert Hf. clear.
  revert files. induction k as [|k IH]; intros [|g rest]; cbn; try tauto.
  intros [H|H]; [now left | right; now apply IH].
Qed.

Lemma header_events (ep : Endpoint) (client : Client) (tail : list event)
    (e : event) :
  (exists version, tail = probe_ok client version) \/ tail = probe_failed client ->
  In e (preamble ep ++ tail) ->
  e = GetVersion client \/ exists line, e = Print line.
Proof.
  intros Htail H. apply in_app_or in H as [H|H].
  - right. unfold preamble in H. cbn [In] in H.
    repeat (destruct H as [H|H]; [eexists; symmetry; exact H|]). contradiction H.
  - destruct Htail as [[version ->] | ->];
      [unfold probe_ok in H | unfold probe_failed in H]; cbn [In] in H.
    + destruct H as [H|[H|[H|[H|[]]]]]; try (right; eexists; symmetry; exact H).
      left. now symmetry.
    + destruct H as [H|[H|[H|[]]]]; try (right; eexists; symmetry; exact H).
      left. now symmetry.
Qed.

Lemma main_event_cases (W : World) (args : Args) (fs : FS) (e : event) :
  In e (trace_of (main W args fs)) ->
  (exists line, e = Print line)
  \/ (exists ep,
       resolve_url W args fs = ([], fs, Ok ep)
       /\ e = GetVersion (client_of W args ep))
  \/ (exists ep version td fs' files,
       resolve_url W args fs = ([], fs, Ok ep)
       /\ get_version W (client_of W args ep) = Some version
       /\ discover W (location args) fs = (td, fs', Ok files)
       /\ (In e td \/ In e (trace_of (process_files W args ep files fs')))).
Proof.
  destruct (main_cases W args fs)
    as [E | [E | [[ep [Hep [Hv E]]] | [ep [v [td [fs' [files [Hep [Hv [Hd E]]]]]]]]]]];
    rewrite E; cbn [trace_of fst].
  - intros [H|[]]. left. eexists. symmetry. exact H.
  - intros [].
  - intros H. apply (header_events ep (client_of W args ep)) in H; [|now right].
    destruct H as [H|H]; [right; left; now exists ep | now left].
  - rewrite app_assoc. intros H. apply in_app_or in H as [H|H].
    + apply (header_events ep (client_of W args ep)) in H; [|left; now exists v].
      destruct H as [H|H]; [right; left; now exists ep | now left].
    + right; right. exists ep, v, td, fs', files.
      repeat (split; [assumption|]). now apply in_app_or in H.
Qed.

(** Every submission of a run comes from the loop over the discovered
    files, after a successful credential test, with the client and the
    chunking values of the run, and carries the document loaded from one of
    the files. *)
Lemma main_submit_origin (W : World) (args : Args) (fs : FS)
    (cl : Client) (d : json) (x y : Z) :
  In (Submit cl d x y) (trace_of (main W args fs)) ->
  exists ep version td fs' files f,
    resolve_url W args fs = ([], fs, Ok ep)
    /\ get_version W (client_of W args ep) = Some version
    /\ discover W (location args) fs = (td, fs', Ok files)
    /\ In f files /\ loaded W fs' f = Ok d
    /\ cl = client_of W args ep
    /\ x = or_default (chunkobjects args) 250
    /\ y = or_default (chunksinjob args) 50.
Proof.
  intros H. apply main_event_cases in H
    as [[line H] | [[ep [_ H]] | [ep [v [td [fs' [files [Hep [Hv [Hd H]]]]]]]]]];
    try discriminate H.
  destruct H as [H|H].
  - discovery_event H Hd.
    destruct H as [[_ [H|[H|H]]] | [_ H]]; discriminate H.
  - apply loop_events in H as [f [Hf [H|[H|[H|[d' [Hl H]]]]]]]; try discriminate H.
    injection H as -> -> -> ->.
    exists ep, v, td, fs', files, f. repeat split; assumption.
Qed.

Lemma submitted_with_In (t : list event) (x y : Z) :
  In (x, y) (submitted_with t) -> exists cl d, In (Submit cl d x y) t.
Proof.
  induction t as [|e t IH]; [intros []|].
  destruct e; cbn [submitted_with]; intros H;
    try (destruct (IH H) as [cl [d' Hin]]; exists cl, d'; now right).
  destruct H as [H|H].
  - injection H as -> ->. exists c, doc. now left.
  - destruct (IH H) as [cl [d' Hin]]. exists cl, d'. now right.
Qed.

(** ** C6: the chunking values *)

Lemma loop_outcome_ok (out : string -> result unit) (files : list string) :
  (forall f, In f files -> out f = Ok tt) -> loop_outcome out files = Ok tt.
Proof.
  induction files as [|f rest IH]; intros H; [reflexivity|].
  cbn. rewrite (H f (or_introl eq_refl)). apply IH.
  intros g Hg. apply H. now right.
Qed.

(** C6 (amended).  Every submission of a run carries the value supplied
    for the objects per chunk, or 250 when 0 was supplied, and the value
    supplied for the chunks per job, or 50 when 0 was supplied; any other
    supplied value, a negative one included, is passed on unchanged; the
    values used are never 0.  No value is refused by the script: once the
    credential test has succeeded, the run completes whenever every
    discovered file loads and the client accepts every submission. *)
Theorem chunking_values_used (W : World) (args : Args) (fs : FS) :
  Forall
    (fun cj => cj = (or_default (chunkobjects args) 250,
                     or_default (chunksinjob args) 50))
    (submitted_with (trace_of (main W args fs)))
  /\ (chunkobjects args = 0 -> or_default (chunkobjects args) 250 = 250)
  /\ (chunkobjects args <> 0 ->
      or_default (chunkobjects args) 250 = chunkobjects args)
  /\ (chunksinjob args = 0 -> or_default (chunksinjob args) 50 = 50)
  /\ (chunksinjob args <> 0 ->
      or_default (chunksinjob args) 50 = chunksinjob args)
  /\ or_default (chunkobjects args) 250 <> 0
  /\ or_default (chunksinjob args) 50 <> 0
  /\ (forall ep version td fs' files,
      resolve_url W args fs = ([], fs, Ok ep) ->
      get_version W (client_of W args ep) = Some version ->
      discover W (location args) fs = (td, fs', Ok files) ->
      (forall f, In f files ->
         exists d,
           loaded W fs' f = Ok d
           /\ chunk_and_submit_data W (client_of W args ep) d
                (or_default (chunkobjects args) 250)
                (or_default (chunksinjob args) 50) = true) ->
      outcome_of (main W args fs) = Ok tt).
Proof.
  split.
  - apply Forall_forall. intros [x y] H.
    apply submitted_with_In in H as [cl [d H]].
    apply main_submit_origin in H
      as [ep [v [td [fs' [files [f [_ [_ [_ [_ [_ [_ [-> ->]]]]]]]]]]]]].
    reflexivity.
  - repeat match goal with |- _ /\ _ => split end.
    + intros H. unfold or_default. now rewrite H.
    + intros H. unfold or_default. apply Z.eqb_neq in H. now rewrite H.
    + intros H. unfold or_default. now rewrite H.
    + intros H. unfold or_default. apply Z.eqb_neq in H. now rewrite H.
    + unfold or_default. destruct (Z.eqb_spec (chunkobjects args) 0); lia.
    + unfold or_default. destruct (Z.eqb_spec (chunksinjob args) 0); lia.
    + intros ep v td fs' files Hep Hv Hd Hall.
      rewrite (main_shape_resolved W args fs ep Hep), Hv, Hd.
      cbn [trace_of fs_of outcome_of fst snd].
      unfold process_files. rewrite for_each_process_shape.
      cbn [outcome_of snd].
      apply loop_outcome_ok. intros f Hf.
      destruct (Hall f Hf) as [d [Hl Hs]].
      unfold file_outcome. now rewrite Hl, Hs.
Qed.

Lemma chunking_values_used_witness :
  Forall (fun cj => cj = (-5, 50))
    (submitted_with
       (trace_of (main example_world (example_args "data.zip" None (-5) 0) []))).
Proof.
  exact (proj1 (chunking_values_used example_world
                  (example_args "data.zip" None (-5) 0) [])).
Defined.

(** C6 as stated fails: with [-c -5] the run raises no configuration error,
    it completes, and both documents of the archive are submitted with
    [-5] objects per chunk; with [-c 0] it completes as well, with 250. *)
Lemma negative_chunk_size_submitted :
  outcome_of (main example_world (example_args "data.zip" None (-5) 50) []) = Ok tt
  /\ submitted_with
       (trace_of (main example_world (example_args "data.zip" None (-5) 50) []))
     = [(-5, 50); (-5, 50)]
  /\ ~ (-5 >= 1)
  /\ outcome_of (main example_world (example_args "data.zip" None 0 50) []) = Ok tt
  /\ submitted_with
       (trace_of (main example_world (example_args "data.zip" None 0 50) []))
     = [(250, 50); (250, 50)].
Proof.
  repeat split; try (vm_compute; reflexivity). lia.
Qed.

(** ** C7: the fatal errors *)

(** C7 (amended).  The two fatal errors the script handles are a URL
    override that is not empty and does not split on [:] into exactly three
    segments, and a failed credential test.  Each prints its diagnostic as
    the last event of the run and ends the process through [exit()], called
    without a status: [SystemExit] carries no code and the exit status is
    0.  For the URL override the diagnostic is the only event; for the
    credential test it follows the banner, the connection lines and the
    call of the version check. *)
Theorem fatal_errors_exit (W : World) (args : Args) (fs : FS) :
  (forall u,
      url args = Some u -> u <> EmptyString ->
      List.length (Py.split ":" u) <> 3%nat ->
      trace_of (main W args fs) = [Print url_usage]
      /\ outcome_of (main W args fs) = Raise (SystemExit None)
      /\ exit_status (outcome_of (main W args fs)) = 0)
  /\ (forall ep,
      resolve_url W args fs = ([], fs, Ok ep) ->
      get_version W (client_of W args ep) = None ->
      trace_of (main W args fs)
      = preamble ep
        ++ [Print testing_line; GetVersion (client_of W args ep); Print auth_failed]
      /\ outcome_of (main W args fs) = Raise (SystemExit None)
      /\ exit_status (outcome_of (main W args fs)) = 0).
Proof.
  split.
  - intros u Hu Hne Hlen.
    rewrite (main_url_refused W args u fs Hu Hne Hlen). repeat split.
  - intros ep Hep Hv.
    destruct (main_cases W args fs)
      as [E | [E | [[ep' [Hep' [Hv' E]]] | [ep' [v [td [fs' [files [Hep' [Hv' _]]]]]]]]]].
    + unfold main in E. rewrite (bind_silent _ _ _ _ _ Hep) in E.
      unfold banner, print in E. rewrite bind_emit in E. discriminate E.
    + unfold main in E. rewrite (bind_silent _ _ _ _ _ Hep) in E.
      unfold banner, print in E. rewrite bind_emit in E. discriminate E.
    + rewrite Hep in Hep'. injection Hep' as <-. rewrite E. repeat split.
    + rewrite Hep in Hep'. injection Hep' as <-. congruence.
Qed.

Lemma fatal_errors_exit_witness :
  trace_of (main example_world
              (example_args "data" (Some "bloodhound.absalom.org") 250 50) [])
  = [Print url_usage]
  /\ exit_status
       (outcome_of (main offline_world (example_args "data" None 250 50) [])) = 0.
Proof.
  split.
  - refine (proj1 (proj1 (fatal_errors_exit example_world
              (example_args "data" (Some "bloodhound.absalom.org") 250 50) [])
              "bloodhound.absalom.org" eq_refl _ _)).
    + discriminate.
    + cbn. discriminate.
  - refine (proj2 (proj2 (proj2 (fatal_errors_exit offline_world
              (example_args "data" None 250 50) [])
              (mkEndpoint "<BHCE_DOMAIN>" "<BHCE_PORT>" "<BHCE_SCHEME>")
              eq_refl eq_refl))).
Defined.

(** C7 as stated fails: a URL override without scheme and port is a fatal
    error, and so is a refused credential test; both runs end through
    [SystemExit] without a code, that is with exit status 0. *)
Lemma fatal_exit_status_zero :
  (outcome_of (main example_world
                 (example_args "data" (Some "bloodhound.absalom.org") 250 50) [])
   = Raise (SystemExit None)
   /\ ~ exit_status
        (outcome_of (main example_world
                       (example_args "data" (Some "bloodhound.absalom.org") 250 50) []))
      <> 0)
  /\ (outcome_of (main offline_world (example_args "data" None 250 50) [])
      = Raise (SystemExit None)
      /\ ~ exit_status
           (outcome_of (main offline_world (example_args "data" None 250 50) []))
         <> 0).
Proof.
  repeat split; try (vm_compute; reflexivity);
    intros H; apply H; vm_compute; reflexivity.
Qed.

(** ** C8: the credential test comes first, the files in order *)

Lemma app_eq_prefix {A} (t1 t2 pre post : list A) (e : A) :
  t1 ++ t2 = pre ++ e :: post -> ~ In e t1 -> exists pre', pre = t1 ++ pre'.
Proof.
  revert pre. induction t1 as [|a t1 IH]; intros pre H Hnot.
  - now exists pre.
  - destruct pre as [|b pre]; cbn in H; injection H as Hab H.
    + exfalso. apply Hnot. left. exact Hab.
    + subst b. destruct (IH pre H) as [pre' ->].
      * intros Hin. apply Hnot. now right.
      * now exists pre'.
Qed.

Lemma filter_none {A} (P : A -> bool) (l : list A) :
  (forall x, In x l -> P x = false) -> filter P l = [].
Proof.
  induction l as [|a l IH]; intros H; [reflexivity|].
  cbn. rewrite (H a (or_introl eq_refl)). apply IH.
  intros x Hx. apply H. now right.
Qed.

Lemma filter_flat_map {A B} (P : B -> bool) (g : A -> list B) (l : list A) :
  filter P (flat_map g l) = flat_map (fun x => filter P (g x)) l.
Proof.
  induction l as [|a l IH]; [reflexivity|].
  cbn. now rewrite filter_app, IH.
Qed.

Lemma filter_file_events (W : World) (client : Client) (c j : Z) (fs : FS)
    (f : string) :
  filter is_file_event (file_events W client c j fs f)
  = file_io W client c j fs f.
Proof.
  unfold file_events, file_io, opens. cbn [filter is_file_event].
  rewrite filter_app.
  destruct (attempt W fs f EncDefault); destruct (loaded W fs f); reflexivity.
Qed.

Lemma submitted_filter (t : list event) :
  submitted t = submitted (filter is_file_event t).
Proof.
  induction t as [|e t IH]; [reflexivity|].
  destruct e; cbn; now rewrite ?IH.
Qed.

Lemma submitted_app (a b : list event) :
  submitted (a ++ b) = submitted a ++ submitted b.
Proof.
  induction a as [|e a IH]; [reflexivity|].
  destruct e; cbn; now rewrite ?IH.
Qed.

Lemma submitted_file_io (W : World) (client : Client) (c j : Z) (fs : FS)
    (files : list string) :
  submitted (flat_map (file_io W client c j fs) files) = docs_of W fs files.
Proof.
  induction files as [|f rest IH]; [reflexivity|].
  cbn [flat_map docs_of]. rewrite submitted_app. fold (docs_of W fs rest).
  rewrite IH. f_equal.
  unfold file_io, opens. rewrite submitted_app.
  destruct (attempt W fs f EncDefault); destruct (loaded W fs f); reflexivity.
Qed.

Lemma header_no_file_event (ep : Endpoint) (client : Client)
    (version : VersionInfo) :
  filter is_file_event (preamble ep ++ probe_ok client version) = []
  /\ filter is_file_event (preamble ep ++ probe_failed client) = [].
Proof. split; reflexivity. Qed.

Lemma discover_no_file_event (W : World) (loc : string) (fs : FS) :
  filter is_file_event (trace_of (discover W loc fs)) = [].
Proof.
  apply filter_none. intros e H. apply discover_events in H.
  destruct H as [[_ [->|[->| ->]]] | [_ ->]]; reflexivity.
Qed.

Lemma header_no_submit (ep : Endpoint) (client : Client) (version : VersionInfo)
    (cl : Client) (d : json) (x y : Z) :
  ~ In (Submit cl d x y) (preamble ep ++ probe_ok client version).
Proof.
  intros H. apply (header_events ep client) in H; [|left; now exists version].
  destruct H as [H | [line H]]; discriminate H.
Qed.

(** C8.  In every run: a submission is preceded by the version check of
    the same client, and that check succeeded; when the version check of a
    run fails, the run loads and submits nothing and ends through
    [exit()]; and when the files are processed, the [open] calls and the
    submissions of the run are those of a prefix of the discovered files,
    file after file in the order of discovery, the whole list when the run
    completes. *)
Theorem probe_then_files_in_order (W : World) (args : Args) (fs : FS) :
  (forall pre cl d x y post,
      trace_of (main W args fs) = pre ++ Submit cl d x y :: post ->
      In (GetVersion cl) pre /\ exists version, get_version W cl = Some version)
  /\ (forall cl,
      In (GetVersion cl) (trace_of (main W args fs)) ->
      get_version W cl = None ->
      filter is_file_event (trace_of (main W args fs)) = []
      /\ outcome_of (main W args fs) = Raise (SystemExit None))
  /\ (forall ep version td fs' files,
      resolve_url W args fs = ([], fs, Ok ep) ->
      get_version W (client_of W args ep) = Some version ->
      discover W (location args) fs = (td, fs', Ok files) ->
      exists k,
        (k <= List.length files)%nat
        /\ filter is_file_event (trace_of (main W args fs))
           = flat_map
               (file_io W (client_of W args ep)
                  (or_default (chunkobjects args) 250)
                  (or_default (chunksinjob args) 50) fs')
               (firstn k files)
        /\ submitted (trace_of (main W args fs)) = docs_of W fs' (firstn k files)
        /\ (outcome_of (main W args fs) = Ok tt -> k = List.length files)).
Proof.
  split; [|split].
  - intros pre cl d x y post H.
    assert (Hin : In (Submit cl d x y) (trace_of (main W args fs))).
    { rewrite H. apply in_elt. }
    apply main_submit_origin in Hin
      as [ep [v [td [fs' [files [f [Hep [Hv [_ [_ [_ [-> _]]]]]]]]]]]].
    rewrite (main_shape_resolved W args fs ep Hep), Hv in H.
    cbn [trace_of fst] in H. rewrite app_assoc in H.
    apply app_eq_prefix in H as [pre' ->]; [|apply header_no_submit].
    split; [|now exists v].
    apply in_or_app. left. apply in_or_app. right. right. now left.
  - intros cl Hin Hnone.
    apply main_event_cases in Hin
      as [[line H] | [[ep [Hep H]] | [ep [v [td [fs' [files [_ [_ [Hd H]]]]]]]]]].
    + discriminate H.
    + injection H as ->.
      rewrite (main_shape_resolved W args fs ep Hep), Hnone.
      split; [apply (header_no_file_event ep _ (mkVersion EmptyString EmptyString)) | reflexivity].
    + destruct H as [H|H].
      * discovery_event H Hd.
        destruct H as [[_ [H|[H|H]]] | [_ H]]; discriminate H.
      * apply loop_events in H as [f [_ [H|[H|[H|[d' [_ H]]]]]]]; discriminate H.
  - intros ep v td fs' files Hep Hv Hd.
    rewrite (main_shape_resolved W args fs ep Hep), Hv, Hd.
    cbn [trace_of fs_of outcome_of fst snd].
    unfold process_files. rewrite for_each_process_shape.
    cbn [trace_of fs_of outcome_of fst snd].
    set (client := client_of W args ep).
    set (c := or_default (chunkobjects args) 250).
    set (j := or_default (chunksinjob args) 50).
    destruct (reached_prefix (file_outcome W client c j fs') files) as [k [Hk Hr]].
    assert (Hf : filter is_file_event
                   (preamble ep ++ probe_ok client v ++ td
                    ++ flat_map (file_events W client c j fs')
                         (reached (file_outcome W client c j fs') files))
                 = flat_map (file_io W client c j fs') (firstn k files)).
    { rewrite app_assoc, filter_app.
      rewrite (proj1 (header_no_file_event ep client v)), filter_app.
      assert (Ht : td = trace_of (discover W (location args) fs)) by now rewrite Hd.
      rewrite Ht, discover_no_file_event. cbn [app].
      rewrite filter_flat_map, Hr.
      apply flat_map_ext. intros f. apply filter_file_events. }
    exists k. split; [exact Hk | split; [exact Hf | split]].
    + now rewrite submitted_filter, Hf, submitted_file_io.
    + intros Hok. apply reached_all in Hok. rewrite Hok in Hr.
      apply (f_equal (@List.length string)) in Hr.
      rewrite firstn_length_le in Hr by exact Hk. now symmetry.
Qed.

Lemma probe_then_files_in_order_witness :
  exists k,
    (k <= 2)%nat
    /\ submitted (trace_of (main example_world
                              (example_args "data.zip" None 250 50) []))
       = docs_of example_world
           (extracted [("users.json", ZFile [123; 125]%N);
                       ("groups.json", ZFile [123; 125]%N)] [])
           (firstn k ["users.json"; "groups.json"]).
Proof.
  destruct (proj2 (proj2 (probe_then_files_in_order example_world
              (example_args "data.zip" None 250 50) []))
              (mkEndpoint "<BHCE_DOMAIN>" "<BHCE_PORT>" "<BHCE_SCHEME>")
              (mkVersion "v2" "5.0.0")
              [ZipOpen "data.zip"; ZipExtractAll "data.zip"]
              (extracted [("users.json", ZFile [123; 125]%N);
                          ("groups.json", ZFile [123; 125]%N)] [])
              ["users.json"; "groups.json"]
              eq_refl eq_refl eq_refl) as [k [Hk [_ [Hs _]]]].
  exists k. split; [exact Hk | exact Hs].
Defined.

(** ** C3: the validator is not part of the loop *)

Lemma checking_line_not_in_header (ep : Endpoint) (client : Client)
    (tail : list event) :
  (exists version, tail = probe_ok client version) \/ tail = probe_failed client ->
  ~ In (Print checking_line) (preamble ep ++ tail).
Proof.
  intros Htail H. apply in_app_or in H as [H|H].
  - unfold preamble in H. cbn [In] in H.
    destruct H as [H|[H|[H|[H|[]]]]]; injection H as H.
    + vm_compute in H. discriminate H.
    + discriminate H.
    + discriminate H.
    + cbn in H. discriminate H.
  - destruct Htail as [[version ->] | ->];
      [unfold probe_ok in H | unfold probe_failed in H]; cbn [In] in H.
    + destruct H as [H|[H|[H|[H|[]]]]]; try discriminate H;
        injection H as H; cbn in H; discriminate H.
    + destruct H as [H|[H|[H|[]]]]; discriminate H.
Qed.

Lemma checking_line_not_in_discovery (W : World) (loc : string) (fs : FS) :
  ~ In (Print checking_line) (trace_of (discover W loc fs)).
Proof.
  intros H. apply discover_events in H.
  destruct H as [[_ [H|[H|H]]] | [_ H]]; try discriminate H;
    injection H as H; cbn in H; discriminate H.
Qed.

Lemma checking_line_not_in_loop (W : World) (client : Client) (c j : Z)
    (files : list string) (fs : FS) :
  ~ In (Print checking_line)
      (trace_of (for_each files (process_file W client c j) fs)).
Proof.
  intros H. apply loop_events in H as [f [_ [H|[H|[H|[d [_ H]]]]]]];
    try discriminate H; injection H as H; cbn in H; discriminate H.
Qed.

(** C3.  No run prints the line with which the validator announces
    itself: the validator is never invoked.  And every document of a file
    the loop opens and loads is handed to the client's chunked submission,
    with the chunking values of the run, whatever its members: nothing is
    asked of the document between loading and submission. *)
Theorem validator_not_invoked (W : World) (args : Args) (fs : FS) :
  ~ In (Print checking_line) (trace_of (main W args fs))
  /\ (forall ep version td fs' files f d,
      resolve_url W args fs = ([], fs, Ok ep) ->
      get_version W (client_of W args ep) = Some version ->
      discover W (location args) fs = (td, fs', Ok files) ->
      In (OpenFile f EncDefault) (trace_of (main W args fs)) ->
      loaded W fs' f = Ok d ->
      In (Submit (client_of W args ep) d
            (or_default (chunkobjects args) 250)
            (or_default (chunksinjob args) 50))
         (trace_of (main W args fs))).
Proof.
  split.
  - destruct (main_cases W args fs)
      as [E | [E | [[ep [Hep [Hv E]]]
                   | [ep [v [td [fs' [files [Hep [Hv [Hd E]]]]]]]]]]];
      rewrite E; cbn [trace_of fst].
    + intros [H|[]]. discriminate H.
    + intros [].
    + apply (checking_line_not_in_header ep (client_of W args ep)). now right.
    + rewrite app_assoc. intros H. apply in_app_or in H as [H|H].
      * revert H. apply (checking_line_not_in_header ep (client_of W args ep)).
        left. now exists v.
      * apply in_app_or in H as [H|H].
        -- assert (Ht : td = trace_of (discover W (location args) fs))
             by now rewrite Hd.
           rewrite Ht in H. now apply checking_line_not_in_discovery in H.
        -- now apply checking_line_not_in_loop in H.
  - intros ep v td fs' files f d Hep Hv Hd Hopen Hload.
    rewrite (main_shape_resolved W args fs ep Hep), Hv, Hd in *.
    cbn [trace_of fs_of outcome_of fst snd] in *.
    rewrite app_assoc in Hopen. apply in_app_or in Hopen as [H|H].
    { apply (header_events ep (client_of W args ep)) in H; [|left; now exists v].
      destruct H as [H | [line H]]; discriminate H. }
    apply in_app_or in H as [H|H].
    { discovery_event H Hd.
      destruct H as [[_ [H|[H|H]]] | [_ H]]; discriminate H. }
    apply in_or_app. right. apply in_or_app. right. apply in_or_app. right.
    unfold process_files in *. rewrite for_each_process_shape in *.
    cbn [trace_of fst] in *.
    apply in_flat_map in H as [g [Hg H]]. apply in_flat_map. exists g.
    split; [exact Hg|].
    assert (Hfg : f = g).
    { apply file_events_cases in H as [H|[H|[H|[d' [_ H]]]]];
        try discriminate H; now injection H. }
    subst g. unfold file_events. right. apply in_or_app. right.
    rewrite Hload. now left.
Qed.

Lemma validator_not_invoked_witness :
  In (Submit (client_of example_world (example_args "data.zip" None 250 50)
                (mkEndpoint "<BHCE_DOMAIN>" "<BHCE_PORT>" "<BHCE_SCHEME>"))
        (JObj []) 250 50)
     (trace_of (main example_world (example_args "data.zip" None 250 50) []))
  /\ outcome_of (validate_json (JObj []) []) = Ok false.
Proof.
  split; [|reflexivity].
  refine (proj2 (validator_not_invoked example_world
            (example_args "data.zip" None 250 50) [])
            (mkEndpoint "<BHCE_DOMAIN>" "<BHCE_PORT>" "<BHCE_SCHEME>")
            (mkVersion "v2" "5.0.0")
            [ZipOpen "data.zip"; ZipExtractAll "data.zip"]
            (extracted [("users.json", ZFile [123; 125]%N);
                        ("groups.json", ZFile [123; 125]%N)] [])
            ["users.json"; "groups.json"] "users.json" (JObj [])
            eq_refl eq_refl eq_refl _ eq_refl).
  vm_compute. tauto.
Defined.

(** ** C10: archive or directory, by the suffix alone *)

Lemma discover_first_event (W : World) (loc : string) (fs : FS) :
  In (if Py.endswith loc ".zip" then ZipOpen loc else Walk loc)
     (trace_of (discover W loc fs)).
Proof.
  unfold discover. destruct (Py.endswith loc ".zip").
  - rewrite extract_zip_shape.
    destruct (zip_at W loc) as [zip_ref|];
      [destruct (forallb extractable zip_ref)|]; now left.
  - rewrite list_files_shape. now left.
Qed.

(** C10.  Whatever the filesystem holds at the location: when the location
    ends in [.zip], discovery is [extract_zip] and no run walks a
    directory; when it does not, discovery is [list_files_in_directory]
    and no run opens an archive; and a run whose credential test succeeded
    opens the location as an archive in the first case and walks it as a
    directory in the second. *)
Theorem discovery_by_suffix (W : World) (args : Args) (fs : FS) :
  (Py.endswith (location args) ".zip" = true ->
     discover W (location args) fs = extract_zip W (location args) fs
     /\ forall d, ~ In (Walk d) (trace_of (main W args fs)))
  /\ (Py.endswith (location args) ".zip" = false ->
     discover W (location args) fs = list_files_in_directory W (location args) fs
     /\ forall z, ~ In (ZipOpen z) (trace_of (main W args fs))
                  /\ ~ In (ZipExtractAll z) (trace_of (main W args fs)))
  /\ (forall ep version,
     resolve_url W args fs = ([], fs, Ok ep) ->
     get_version W (client_of W args ep) = Some version ->
     In (if Py.endswith (location args) ".zip"
         then ZipOpen (location args) else Walk (location args))
        (trace_of (main W args fs))).
Proof.
  split; [|split].
  - intros Hz. split; [unfold discover; now rewrite Hz|].
    intros d H. apply main_event_cases in H
      as [[line H] | [[ep [_ H]] | [ep [v [td [fs' [files [_ [_ [Hd H]]]]]]]]]];
      try discriminate H.
    destruct H as [H|H].
    + discovery_event H Hd.
      destruct H as [[_ [H|[H|H]]] | [Hn _]]; try discriminate H. congruence.
    + apply loop_events in H as [f [_ [H|[H|[H|[d' [_ H]]]]]]]; discriminate H.
  - intros Hz. split; [unfold discover; now rewrite Hz|].
    intros z. split; intros H;
      (apply main_event_cases in H
        as [[line H] | [[ep [_ H]] | [ep [v [td [fs' [files [_ [_ [Hd H]]]]]]]]]];
       try discriminate H;
       destruct H as [H|H];
       [ discovery_event H Hd;
         destruct H as [[Hy _] | [_ H]]; [congruence | discriminate H]
       | apply loop_events in H as [f [_ [H|[H|[H|[d' [_ H]]]]]]];
         discriminate H ]).
  - intros ep v Hep Hv.
    rewrite (main_shape_resolved W args fs ep Hep), Hv. cbn [trace_of fst].
    apply in_or_app. right. apply in_or_app. right. apply in_or_app. left.
    apply discover_first_event.
Qed.

Lemma discovery_by_suffix_witness :
  (forall d, ~ In (Walk d)
       (trace_of (main example_world (example_args "data.zip" None 250 50) [])))
  /\ In (Walk "data")
        (trace_of (main example_world (example_args "data" None 250 50) [])).
Proof.
  split.
  - exact (proj2 (proj1 (discovery_by_suffix example_world
                           (example_args "data.zip" None 250 50) []) eq_refl)).
  - exact (proj2 (proj2 (discovery_by_suffix example_world
                           (example_args "data" None 250 50) []))
             (mkEndpoint "<BHCE_DOMAIN>" "<BHCE_PORT>" "<BHCE_SCHEME>")
             (mkVersion "v2" "5.0.0") eq_refl eq_refl).
Defined.

(** ** C4: archives *)

(** Where members are written: [..], [.] and empty components are gone. *)
Example sanitize_examples :
  sanitize "users.json" = "users.json"
  /\ sanitize "../up.json" = "up.json"
  /\ sanitize "/etc/x.json" = "etc/x.json"
  /\ sanitize "a//b/./c.json" = "a/b/c.json"
  /\ sanitize ".." = EmptyString.
Proof. repeat split. Qed.






(** ** C5: directories *)

Lemma in_json_paths (walked : list walk_entry) (p : string) :
  In p (json_paths walked) <->
  exists root dirs files file,
    In (root, dirs, files) walked /\ In file files
    /\ Py.endswith file ".json" = true /\ p = Py.path_join root file.
Proof.
  unfold json_paths. rewrite in_flat_map. split.
  - intros [[[root dirs] files] [Hw Hp]].
    apply in_map_iff in Hp as [file [<- Hf]].
    apply filter_In in Hf as [Hf Hj].
    now exists root, dirs, files, file.
  - intros [root [dirs [files [file [Hw [Hf [Hj ->]]]]]]].
    exists (root, dirs, files). split; [exact Hw|].
    apply in_map. apply filter_In. now split.
Qed.

(** The number of [.json] files a walk lists. *)
Lemma length_json_paths (walked : list walk_entry) :
  List.length (json_paths walked)
  = list_sum
      (map (fun entry : walk_entry =>
              List.length (filter (fun file => Py.endswith file ".json") (snd entry)))
           walked).
Proof.
  induction walked as [|[[root dirs] files] rest IH]; [reflexivity|].
  unfold json_paths in *. cbn [flat_map map list_sum snd].
  now rewrite length_app, length_map, IH.
Qed.

(** C5, as the code behaves.  Discovery in a directory walks it and
    returns, in the order of the walk, the joined path of every listed file
    whose name ends in [.json] and of no other file: as many paths as there
    are such files.  It never prints: when the directory does not exist the
    walk yields nothing, no exception reaches the handler of
    [FileNotFoundError], and the empty list is returned without the
    diagnostic. *)
Theorem list_files_in_directory_behaviour (W : World) (directory : string)
    (fs : FS) :
  list_files_in_directory W directory fs
  = ([Walk directory], fs, Ok (json_paths (walked_from W directory)))
  /\ (forall p,
      In p (json_paths (walked_from W directory)) <->
      exists root dirs files file,
        In (root, dirs, files) (walked_from W directory) /\ In file files
        /\ Py.endswith file ".json" = true /\ p = Py.path_join root file)
  /\ List.length (json_paths (walked_from W directory))
     = list_sum
         (map (fun entry : walk_entry =>
                 List.length
                   (filter (fun file => Py.endswith file ".json") (snd entry)))
              (walked_from W directory))
  /\ (dir_at W directory = None ->
      list_files_in_directory W directory fs = ([Walk directory], fs, Ok [])
      /\ ~ In (Print (dir_diagnostic directory))
             (trace_of (list_files_in_directory W directory fs))).
Proof.
  repeat split.
  - apply list_files_shape.
  - now apply in_json_paths.
  - now apply in_json_paths.
  - apply length_json_paths.
  - rewrite list_files_shape. unfold walked_from. now rewrite H.
  - rewrite list_files_shape. cbn [trace_of fst In].
    intros [Hc|[]]. discriminate Hc.
Qed.

Lemma list_files_in_directory_behaviour_witness :
  list_files_in_directory example_world "missing" []
  = ([Walk "missing"], [], Ok [])
  /\ list_files_in_directory example_world "data" []
     = ([Walk "data"], [], Ok ["data/a.json"; "data/sub/c.json"]).
Proof.
  split.
  - exact (proj1 (proj2 (proj2 (proj2
             (list_files_in_directory_behaviour example_world "missing" [])))
             eq_refl)).
  - exact (proj1 (list_files_in_directory_behaviour example_world "data" [])).
Defined.

(** ** C2: loading with the fallback *)

Lemma attempt_unfold (W : World) (fs : FS) (f : string) (enc : encoding) :
  attempt W fs f enc
  = match fs_read fs f with
    | None => Raise FileNotFoundError
    | Some b =>
        match decode W enc b with
        | None => Raise UnicodeDecodeError
        | Some text =>
            match parses W text with
            | Some d => Ok d
            | None => Raise JSONDecodeError
            end
        end
    end.
Proof.
  unfold attempt, json_load, open_read, json_loads, outcome_of, parses.
  unfold bind, emit, get_fs, ret, raise.
  destruct (fs_read fs f) as [b|]; [|reflexivity].
  destruct (decode W enc b) as [[|c text]|]; try reflexivity.
  destruct (N.eqb c bom_char); [reflexivity|].
  destruct (skip_whitespace (c :: text)) as [|c' rest]; [reflexivity|].
  destruct (value_start c'); [|reflexivity].
  destruct (json_decode W (c :: text)); reflexivity.
Qed.

Lemma attempt_ok_iff (W : World) (fs : FS) (f : string) (enc : encoding)
    (d : json) :
  attempt W fs f enc = Ok d <->
  exists b text,
    fs_read fs f = Some b /\ decode W enc b = Some text /\ parses W text = Some d.
Proof.
  rewrite attempt_unfold. split.
  - destruct (fs_read fs f) as [b|]; [|discriminate].
    destruct (decode W enc b) as [text|] eqn:Hd; [|discriminate].
    destruct (parses W text) as [d'|] eqn:Hp; [|discriminate].
    intros H. injection H as ->. now exists b, text.
  - intros [b [text [-> [-> ->]]]]. reflexivity.
Qed.

Lemma utf8_decode_bom (b : bytes) :
  utf8_decode (bom ++ b) = option_map (cons bom_char) (utf8_decode b).
Proof. reflexivity. Qed.

Lemma reached_until_failure (out : string -> result unit)
    (pre post : list string) (f : string) (e : exn) :
  (forall g, In g pre -> out g = Ok tt) ->
  out f = Raise e ->
  reached out (pre ++ f :: post) = pre ++ [f]
  /\ loop_outcome out (pre ++ f :: post) = Raise e.
Proof.
  intros Hpre Hf. induction pre as [|g pre IH]; cbn.
  - now rewrite Hf.
  - rewrite (Hpre g (or_introl eq_refl)). cbn.
    destruct IH as [-> ->]; [|now split].
    intros h Hh. apply Hpre. now right.
Qed.

Lemma parses_non_ascii (W : World) (c : N) (text : list N) :
  (0x80 <= c)%N -> parses W (c :: text) = None.
Proof.
  intros Hc. unfold parses. destruct (N.eqb c bom_char); [reflexivity|].
  assert (Hw : json_whitespace c = false).
  { unfold json_whitespace. repeat apply orb_false_intro; apply N.eqb_neq; lia. }
  assert (Hv : value_start c = false).
  { unfold value_start.
    repeat apply orb_false_intro; try (apply N.eqb_neq; lia).
    apply andb_false_iff. right. apply N.leb_gt. lia. }
  cbn [skip_whitespace]. now rewrite Hw, Hv.
Qed.

Lemma utf8_ascii_compatible : ascii_compatible utf8_decode.
Proof.
  intros c rest text Hc Hd. cbn [utf8_decode] in Hd. cbv zeta in Hd.
  destruct (c <? 0x80)%N eqn:E1; [apply N.ltb_lt in E1; lia|].
  destruct ((0xC2 <=? c) && (c <=? 0xDF))%N eqn:E2.
  { destruct rest as [|b1 r1]; [discriminate|].
    destruct (cont b1); [|discriminate].
    destruct (utf8_decode r1); [|discriminate].
    injection Hd as <-. eexists. eexists. split; [reflexivity|].
    apply andb_prop in E2 as [E2 _]. apply N.leb_le in E2. lia. }
  destruct ((0xE0 <=? c) && (c <=? 0xEF))%N eqn:E3.
  { destruct rest as [|b1 [|b2 r2]]; try discriminate.
    match type of Hd with (if ?g then _ else _) = _ => destruct g eqn:G end;
      [|discriminate].
    destruct (utf8_decode r2); [|discriminate].
    injection Hd as <-. eexists. eexists. split; [reflexivity|].
    apply andb_prop in G as [G _]. apply andb_prop in G as [_ G].
    apply N.leb_le in G. lia. }
  destruct ((0xF0 <=? c) && (c <=? 0xF4))%N eqn:E4; [|discriminate].
  destruct rest as [|b1 [|b2 [|b3 r3]]]; try discriminate.
  match type of Hd with (if ?g then _ else _) = _ => destruct g eqn:G end;
    [|discriminate].
  destruct (utf8_decode r3); [|discriminate].
  injection Hd as <-. eexists. eexists. split; [reflexivity|].
  apply andb_prop in G as [G _]. apply andb_prop in G as [_ G].
  apply N.leb_le in G. lia.
Qed.

Lemma bytewise_ascii_compatible (char : N -> option N) :
  (forall b c, (0x80 <= b)%N -> char b = Some c -> (0x80 <= c)%N) ->
  ascii_compatible (decode_bytewise char).
Proof.
  intros Hchar c rest text Hc Hd. cbn [decode_bytewise] in Hd.
  destruct (char c) as [c'|] eqn:Ec; [|discriminate].
  destruct (decode_bytewise char rest) as [text'|]; [|discriminate].
  injection Hd as <-. exists c', text'. split; [reflexivity|].
  now apply (Hchar c).
Qed.

Lemma ascii_ascii_compatible : ascii_compatible ascii_decode.
Proof.
  apply bytewise_ascii_compatible. intros b c Hb. unfold ascii_char.
  destruct (b <? 0x80)%N eqn:E; [apply N.ltb_lt in E; lia | discriminate].
Qed.

Lemma cp1252_high_not_ascii :
  Forall (fun o : option N => forall v, o = Some v -> (0x80 <= v)%N) cp1252_high.
Proof.
  unfold cp1252_high.
  repeat constructor; intros v Hv; try discriminate Hv;
    injection Hv as <-; discriminate.
Qed.

Lemma cp1252_ascii_compatible : ascii_compatible cp1252_decode.
Proof.
  apply bytewise_ascii_compatible. intros b c Hb. unfold cp1252_char.
  destruct (b <? 0x80)%N eqn:E1; [apply N.ltb_lt in E1; lia|].
  destruct (b <? 0xA0)%N.
  - intros Hn.
    destruct (Nat.lt_ge_cases (N.to_nat (b - 0x80)) (List.length cp1252_high))
      as [Hlt | Hge].
    + pose proof (nth_In cp1252_high None Hlt) as Hin. rewrite Hn in Hin.
      exact (proj1 (Forall_forall _ _) cp1252_high_not_ascii _ Hin c eq_refl).
    + rewrite (nth_overflow cp1252_high None Hge) in Hn. discriminate Hn.
  - destruct (b <? 0x100)%N; [|discriminate].
    intros H. injection H as <-. exact Hb.
Qed.

(** C2.  For every file path: when the content decodes under the
    platform's default encoding to a text that parses as JSON, loading
    succeeds with the first [open] alone.  When the content starts with
    the byte-order marker, on every platform whose default encoding keeps
    bytes outside ASCII outside ASCII (UTF-8, [cp1252], [ascii], ...: the
    marker is not skipped), the first attempt fails, loading goes through
    the second [open] with [utf-8-sig], and it succeeds exactly when the
    bytes after the marker decode to a text that parses.  When both
    attempts fail, the exception
    of the second leaves [load_file]; in a run that reaches this file after
    an error-free prefix of the discovered files, it ends the run, and the
    two [open] calls of this file are the last file events of the run:
    nothing that was discovered after it is opened or submitted. *)
Theorem load_file_fallback (W : World) (f : string) (fs : FS) :
  (forall b text d,
      fs_read fs f = Some b ->
      decode_default W b = Some text ->
      parses W text = Some d ->
      load_file W f fs = ([OpenFile f EncDefault], fs, Ok d))
  /\ (forall b,
      fs_read fs f = Some (bom ++ b) ->
      ascii_compatible (decode_default W) ->
      succeeded (attempt W fs f EncDefault) = false
      /\ load_file W f fs
         = ([OpenFile f EncDefault; OpenFile f EncUtf8Sig], fs,
            attempt W fs f EncUtf8Sig)
      /\ (forall d,
            loaded W fs f = Ok d <->
            exists text, utf8_decode b = Some text /\ parses W text = Some d))
  /\ (forall e1 e2,
      attempt W fs f EncDefault = Raise e1 ->
      attempt W fs f EncUtf8Sig = Raise e2 ->
      load_file W f fs
      = ([OpenFile f EncDefault; OpenFile f EncUtf8Sig], fs, Raise e2)
      /\ (forall args fs0 ep version td pre post,
            resolve_url W args fs0 = ([], fs0, Ok ep) ->
            get_version W (client_of W args ep) = Some version ->
            discover W (location args) fs0 = (td, fs, Ok (pre ++ f :: post)) ->
            (forall g, In g pre ->
               file_outcome W (client_of W args ep)
                 (or_default (chunkobjects args) 250)
                 (or_default (chunksinjob args) 50) fs g = Ok tt) ->
            outcome_of (main W args fs0) = Raise e2
            /\ filter is_file_event (trace_of (main W args fs0))
               = flat_map
                   (file_io W (client_of W args ep)
                      (or_default (chunkobjects args) 250)
                      (or_default (chunksinjob args) 50) fs) pre
                 ++ [OpenFile f EncDefault; OpenFile f EncUtf8Sig])).
Proof.
  split; [|split].
  - intros b text d Hb Ht Hp.
    rewrite load_file_shape.
    assert (Ha : attempt W fs f EncDefault = Ok d).
    { apply attempt_ok_iff. now exists b, text. }
    now rewrite Ha.
  - intros b Hb Hdec.
    assert (Ha : succeeded (attempt W fs f EncDefault) = false).
    { rewrite attempt_unfold, Hb. cbn [decode].
      destruct (decode_default W (bom ++ b)) as [text|] eqn:Ht; [|reflexivity].
      destruct (Hdec 0xEF%N (0xBB :: 0xBF :: b)%N text) as [c' [text' [-> Hc']]];
        [discriminate | exact Ht |].
      now rewrite parses_non_ascii. }
    assert (Hl : load_file W f fs
                 = ([OpenFile f EncDefault; OpenFile f EncUtf8Sig], fs,
                    attempt W fs f EncUtf8Sig)).
    { rewrite load_file_shape.
      destruct (attempt W fs f EncDefault); [discriminate Ha | reflexivity]. }
    split; [exact Ha | split; [exact Hl|]].
    intros d. unfold loaded. rewrite Hl. cbn [outcome_of snd].
    rewrite attempt_ok_iff. split.
    + intros [b' [text [Hb' [Ht Hp]]]]. rewrite Hb in Hb'.
      injection Hb' as Hb'. subst b'. exists text. split; [exact Ht | exact Hp].
    + intros [text [Ht Hp]]. exists (bom ++ b), text.
      split; [exact Hb | split; [exact Ht | exact Hp]].
  - intros e1 e2 H1 H2.
    assert (Hl : load_file W f fs
                 = ([OpenFile f EncDefault; OpenFile f EncUtf8Sig], fs, Raise e2)).
    { rewrite load_file_shape, H1, H2. reflexivity. }
    split; [exact Hl|].
    intros args fs0 ep v td pre post Hep Hv Hd Hpre.
    set (client := client_of W args ep) in *.
    set (c := or_default (chunkobjects args) 250) in *.
    set (j := or_default (chunksinjob args) 50) in *.
    assert (Hf : file_outcome W client c j fs f = Raise e2).
    { unfold file_outcome, loaded. now rewrite Hl. }
    destruct (reached_until_failure (file_outcome W client c j fs) pre post f e2
                Hpre Hf) as [Hr Ho].
    rewrite (main_shape_resolved W args fs0 ep Hep). fold client. rewrite Hv, Hd.
    cbn [trace_of fs_of outcome_of fst snd].
    unfold process_files. fold client c j. rewrite for_each_process_shape.
    cbn [trace_of fs_of outcome_of fst snd].
    split; [exact Ho|].
    rewrite app_assoc, filter_app.
    rewrite (proj1 (header_no_file_event ep client v)), filter_app.
    assert (Ht : td = trace_of (discover W (location args) fs0)) by now rewrite Hd.
    rewrite Ht, discover_no_file_event. cbn [app].
    rewrite filter_flat_map, Hr, flat_map_app. f_equal.
    + apply flat_map_ext. intros g. apply filter_file_events.
    + cbn [flat_map]. rewrite app_nil_r, filter_file_events.
      unfold file_io, opens, loaded. now rewrite H1, Hl.
Qed.

Lemma load_file_fallback_witness :
  load_file example_world "bom.json" [("bom.json", bom ++ [123; 125]%N)]
  = ([OpenFile "bom.json" EncDefault; OpenFile "bom.json" EncUtf8Sig],
     [("bom.json", bom ++ [123; 125]%N)], Ok (JObj []))
  /\ load_file example_world "plain.json" [("plain.json", [123; 125]%N)]
     = ([OpenFile "plain.json" EncDefault],
        [("plain.json", [123; 125]%N)], Ok (JObj []))
  /\ load_file cp1252_world "bom.json" [("bom.json", bom ++ [123; 125]%N)]
     = ([OpenFile "bom.json" EncDefault; OpenFile "bom.json" EncUtf8Sig],
        [("bom.json", bom ++ [123; 125]%N)], Ok (JObj []))
  /\ load_file ascii_world "bom.json" [("bom.json", bom ++ [123; 125]%N)]
     = ([OpenFile "bom.json" EncDefault; OpenFile "bom.json" EncUtf8Sig],
        [("bom.json", bom ++ [123; 125]%N)], Ok (JObj [])).
Proof.
  split; [|split; [|split]].
  - exact (proj1 (proj2 (proj1 (proj2
             (load_file_fallback example_world "bom.json"
                [("bom.json", bom ++ [123; 125]%N)]))
             [123; 125]%N eq_refl utf8_ascii_compatible))).
  - exact (proj1 (load_file_fallback example_world "plain.json"
                    [("plain.json", [123; 125]%N)])
             [123; 125]%N [123; 125]%N (JObj []) eq_refl eq_refl eq_refl).
  - exact (proj1 (proj2 (proj1 (proj2
             (load_file_fallback cp1252_world "bom.json"
                [("bom.json", bom ++ [123; 125]%N)]))
             [123; 125]%N eq_refl cp1252_ascii_compatible))).
  - exact (proj1 (proj2 (proj1 (proj2
             (load_file_fallback ascii_world "bom.json"
                [("bom.json", bom ++ [123; 125]%N)]))
             [123; 125]%N eq_refl ascii_ascii_compatible))).
Defined.

(* ================================================================== *)
(** * Further properties of the script *)

(** ** The URL override, by its colons *)

Lemma length_split (c : ascii) (s : string) :
  List.length (Py.split c s) = S (count_char c s).
Proof.
  induction s as [|x r IH]; [reflexivity|].
  cbn [Py.split count_char]. destruct (Ascii.eqb x c).
  - cbn. now rewrite IH.
  - destruct (Py.split c r) as [|h t]; [discriminate IH|]. exact IH.
Qed.

Lemma resolve_url_three_segments (W : World) (args : Args) (u : string) (fs : FS) :
  url args = Some u ->
  List.length (Py.split ":" u) = 3%nat ->
  (exists ep, resolve_url W args fs = ([], fs, Ok ep))
  \/ resolve_url W args fs = ([], fs, Raise IndexError).
Proof.
  intros Hu Hlen.
  assert (Ht : Py.truthy (url args) = true).
  { rewrite Hu. destruct u; [discriminate Hlen | reflexivity]. }
  unfold resolve_url. rewrite Ht, Hu. cbn [str_of].
  rewrite Hlen. cbn [Nat.eqb negb]. rewrite bind_ret_l.
  unfold index.
  destruct (nth_error (Py.split ":" u) 1) as [seg1|];
    [rewrite bind_ret_l | right; reflexivity].
  destruct (nth_error (Py.split "/" seg1) 2) as [domain|];
    [rewrite bind_ret_l | right; reflexivity].
  destruct (nth_error (Py.split ":" u) 2) as [port|];
    [rewrite bind_ret_l | right; reflexivity].
  destruct (nth_error (Py.split ":" u) 0) as [scheme|];
    [rewrite bind_ret_l | right; reflexivity].
  left. eexists. reflexivity.
Qed.

(** X1.  A non-empty URL override passes the shape check of [main] exactly
    when it holds two colons: with any other number of colons the run
    prints the corrective message and nothing else, and with two it never
    prints it alone. *)
Theorem url_refused_iff_not_two_colons (W : World) (args : Args) (u : string)
    (fs : FS) :
  url args = Some u ->
  u <> EmptyString ->
  (count_char ":" u <> 2%nat <->
   trace_of (main W args fs) = [Print url_usage]).
Proof.
  intros Hu Hne. split.
  - intros Hc. rewrite (main_url_refused W args u fs Hu Hne); [reflexivity|].
    rewrite length_split. lia.
  - intros Ht Hc.
    assert (Hlen : List.length (Py.split ":" u) = 3%nat)
      by (rewrite length_split; lia).
    destruct (resolve_url_three_segments W args u fs Hu Hlen) as [[ep Hep] | Hix].
    + rewrite (main_shape_resolved W args fs ep Hep) in Ht.
      destruct (get_version W (client_of W args ep)); discriminate Ht.
    + unfold main in Ht. rewrite (bind_raise _ _ _ _ _ _ Hix) in Ht.
      discriminate Ht.
Qed.

Lemma url_refused_iff_not_two_colons_witness :
  trace_of (main example_world
              (example_args "data" (Some "https://[::1]:443") 250 50) [])
  = [Print url_usage].
Proof.
  refine (proj1 (url_refused_iff_not_two_colons example_world
            (example_args "data" (Some "https://[::1]:443") 250 50)
            "https://[::1]:443" [] eq_refl _) _).
  - discriminate.
  - cbn. discriminate.
Defined.

(** X2.  A URL override with two colons whose middle segment holds fewer
    than two slashes makes [main] raise [IndexError] at once: nothing is
    printed, not even the corrective message, no network call is made, and
    the process ends on the uncaught exception (status 1). *)
Theorem url_without_host_raises (W : World) (args : Args) (u s m p : string)
    (fs : FS) :
  url args = Some u ->
  Py.split ":" u = [s; m; p] ->
  (count_char "/" m < 2)%nat ->
  main W args fs = ([], fs, Raise IndexError)
  /\ exit_status (outcome_of (main W args fs)) = 1.
Proof.
  intros Hu Hsplit Hm.
  assert (Hr : resolve_url W args fs = ([], fs, Raise IndexError)).
  { assert (Ht : Py.truthy (url args) = true).
    { rewrite Hu. destruct u; [discriminate Hsplit | reflexivity]. }
    unfold resolve_url. rewrite Ht, Hu. cbn [str_of].
    rewrite Hsplit. cbn [List.length Nat.eqb negb].
    rewrite bind_ret_l.
    rewrite (index_some [s; m; p] 1 m eq_refl), bind_ret_l.
    assert (Hn : nth_error (Py.split "/" m) 2 = None).
    { apply nth_error_None. rewrite length_split. lia. }
    unfold index. rewrite Hn. reflexivity. }
  assert (E : main W args fs = ([], fs, Raise IndexError)).
  { unfold main. now rewrite (bind_raise _ _ _ _ _ _ Hr). }
  split; [exact E | now rewrite E].
Qed.

Lemma url_without_host_raises_witness :
  main example_world (example_args "data" (Some "http:bloodhound:443") 250 50) []
  = ([], [], Raise IndexError).
Proof.
  refine (proj1 (url_without_host_raises example_world
            (example_args "data" (Some "http:bloodhound:443") 250 50)
            "http:bloodhound:443" "http" "bloodhound" "443" [] eq_refl eq_refl _)).
  cbn. lia.
Defined.

(** ** The validator outside objects *)

Lemma existsb_is_str (k : string) (items : list json) :
  existsb (is_str k) items = true <-> In (JStr k) items.
Proof.
  rewrite existsb_exists. split.
  - intros [d [Hin Hd]]. destruct d; try discriminate Hd.
    cbn in Hd. apply String.eqb_eq in Hd. now subst.
  - intros Hin. exists (JStr k). split; [exact Hin | apply String.eqb_refl].
Qed.

(** X3.  On a document that is a number, a boolean or null, the validator
    prints its announcement line and raises [TypeError]: it neither returns
    nor prints the diagnostic. *)
Theorem validate_json_scalar (d : json) (fs : FS) :
  scalar d = true ->
  validate_json d fs = ([Print checking_line], fs, Raise TypeError).
Proof.
  intros Hd. destruct d; try discriminate Hd; reflexivity.
Qed.

Lemma validate_json_scalar_witness :
  validate_json JNull [] = ([Print checking_line], [], Raise TypeError).
Proof. exact (validate_json_scalar JNull [] eq_refl). Defined.

Lemma all_keys_in_array (items : list json) (fs : FS) :
  all_keys_in (JArr items) ["data"; "meta"] fs
  = ([], fs, Ok (existsb (is_str "data") items && existsb (is_str "meta") items)).
Proof.
  cbn [all_keys_in]. unfold bind, contains, ret.
  destruct (existsb (is_str "data") items); [|reflexivity].
  destruct (existsb (is_str "meta") items); reflexivity.
Qed.

(** X4.  On a document that is an array, the validator never raises and
    answers true exactly when the strings [data] and [meta] are both items
    of the array; on any other array it prints the diagnostic and answers
    false. *)
Theorem validate_json_array (items : list json) (fs : FS) :
  exists b : bool,
    outcome_of (validate_json (JArr items) fs) = Ok b
    /\ (b = true <-> In (JStr "data") items /\ In (JStr "meta") items)
    /\ (b = false ->
        trace_of (validate_json (JArr items) fs)
        = Print checking_line :: map Print validate_diagnostic).
Proof.
  unfold validate_json, bind, print, emit.
  rewrite all_keys_in_array.
  pose proof (existsb_is_str "data" items) as Hd.
  pose proof (existsb_is_str "meta" items) as Hm.
  destruct (existsb (is_str "data") items) eqn:Ed;
    [destruct (existsb (is_str "meta") items) eqn:Em|].
  - exists true. cbn. repeat split; try tauto; try discriminate.
  - exists false. cbn. repeat split; try discriminate; try tauto.
  - exists false. cbn. repeat split; try discriminate; try tauto.
Qed.

(** ** One client for the whole run *)

Lemma loop_no_get_version (W : World) (client : Client) (c j : Z)
    (files : list string) (fs : FS) :
  filter is_get_version
    (trace_of (for_each files (process_file W client c j) fs)) = [].
Proof.
  apply filter_none. intros e H.
  apply loop_events in H as [f [_ [->|[->|[->|[d [_ ->]]]]]]]; reflexivity.
Qed.

Lemma discover_no_get_version (W : World) (loc : string) (fs : FS) :
  filter is_get_version (trace_of (discover W loc fs)) = [].
Proof.
  apply filter_none. intros e H. apply discover_events in H.
  destruct H as [[_ [->|[->| ->]]] | [_ ->]]; reflexivity.
Qed.

Lemma main_network_client (W : World) (args : Args) (fs : FS) (e : event)
    (cl : Client) :
  In e (trace_of (main W args fs)) ->
  e = GetVersion cl \/ (exists d x y, e = Submit cl d x y) ->
  exists ep,
    resolve_url W args fs = ([], fs, Ok ep) /\ cl = client_of W args ep.
Proof.
  intros Hin [-> | [d [x [y ->]]]].
  - apply main_event_cases in Hin
      as [[line H] | [[ep [Hep H]] | [ep [v [td [fs' [files [_ [_ [Hd H]]]]]]]]]].
    + discriminate H.
    + injection H as ->. now exists ep.
    + destruct H as [H|H].
      * discovery_event H Hd.
        destruct H as [[_ [H|[H|H]]] | [_ H]]; discriminate H.
      * apply loop_events in H as [f [_ [H|[H|[H|[d' [_ H]]]]]]]; discriminate H.
  - apply main_submit_origin in Hin
      as [ep [v [td [fs' [files [f [Hep [_ [_ [_ [_ [-> _]]]]]]]]]]]].
    now exists ep.
Qed.

(** X5.  A run calls the version check exactly once when the endpoint is
    resolved and never otherwise, and every submission of the run goes
    through the client that was checked: one client serves the whole run. *)
Theorem one_probe_per_run (W : World) (args : Args) (fs : FS) :
  filter is_get_version (trace_of (main W args fs))
  = match outcome_of (resolve_url W args fs) with
    | Ok ep => [GetVersion (client_of W args ep)]
    | Raise _ => []
    end
  /\ (forall cl d x y,
      In (Submit cl d x y) (trace_of (main W args fs)) ->
      filter is_get_version (trace_of (main W args fs)) = [GetVersion cl]).
Proof.
  assert (Hone : forall ep,
             resolve_url W args fs = ([], fs, Ok ep) ->
             filter is_get_version (trace_of (main W args fs))
             = [GetVersion (client_of W args ep)]).
  { intros ep Hep. rewrite (main_shape_resolved W args fs ep Hep).
    destruct (get_version W (client_of W args ep)) as [v|]; [|reflexivity].
    cbn [trace_of fst]. rewrite !filter_app.
    rewrite discover_no_get_version.
    unfold process_files. rewrite loop_no_get_version. reflexivity. }
  split.
  - destruct (resolve_url_cases W args fs) as [[ep Hep] | [H | H]].
    + rewrite (Hone ep Hep), Hep. reflexivity.
    + rewrite H. unfold main. now rewrite (bind_raise _ _ _ _ _ _ H).
    + rewrite H. unfold main. now rewrite (bind_raise _ _ _ _ _ _ H).
  - intros cl d x y Hin.
    destruct (main_network_client W args fs _ cl Hin) as [ep [Hep ->]].
    + right. now exists d, x, y.
    + now apply Hone.
Qed.

Lemma one_probe_per_run_witness :
  filter is_get_version
    (trace_of (main example_world (example_args "data.zip" None 250 50) []))
  = [GetVersion
       (client_of example_world (example_args "data.zip" None 250 50)
          (mkEndpoint "<BHCE_DOMAIN>" "<BHCE_PORT>" "<BHCE_SCHEME>"))].
Proof.
  exact (proj1 (one_probe_per_run example_world
                  (example_args "data.zip" None 250 50) [])).
Defined.

(** X6.  Every network call of a run carries the credentials and the
    endpoint that [main] resolved: a token id or key given on the command
    line and not empty is used as it is, an absent or empty one is replaced
    by the entry of [api_info]; without a URL override the scheme, host and
    port are the entries of [api_info]. *)
Theorem network_calls_use_resolved_settings (W : World) (args : Args) (fs : FS)
    (e : event) (cl : Client) :
  In e (trace_of (main W args fs)) ->
  e = GetVersion cl \/ (exists d x y, e = Submit cl d x y) ->
  (forall t, tokenid args = Some t -> t <> EmptyString ->
     token_id (credentials cl) = t)
  /\ (tokenid args = None \/ tokenid args = Some EmptyString ->
      token_id (credentials cl) = api_info W "BHCE_TOKEN_ID")
  /\ (forall k, tokenkey args = Some k -> k <> EmptyString ->
      token_key (credentials cl) = k)
  /\ (tokenkey args = None \/ tokenkey args = Some EmptyString ->
      token_key (credentials cl) = api_info W "BHCE_TOKEN_KEY")
  /\ (url args = None ->
      scheme cl = api_info W "BHCE_SCHEME"
      /\ host cl = api_info W "BHCE_DOMAIN"
      /\ port cl = api_info W "BHCE_PORT").
Proof.
  intros Hin He.
  destruct (main_network_client W args fs e cl Hin He) as [ep [Hep ->]].
  unfold client_of, resolve_credentials. cbn [credentials token_id token_key
    scheme host port].
  repeat match goal with |- _ /\ _ => split end.
  - intros t Ht Hne. rewrite Ht. destruct t; [contradiction | reflexivity].
  - intros [Ht | Ht]; now rewrite Ht.
  - intros k Hk Hne. rewrite Hk. destruct k; [contradiction | reflexivity].
  - intros [Hk | Hk]; now rewrite Hk.
  - intros Hu. unfold resolve_url in Hep. rewrite Hu in Hep.
    cbn [Py.truthy] in Hep. unfold ret in Hep. injection Hep as <-.
    now repeat split.
Qed.

Lemma network_calls_use_resolved_settings_witness :
  token_id (credentials
              (mkClient "<BHCE_SCHEME>" "<BHCE_DOMAIN>" "<BHCE_PORT>"
                 (mkCredentials "id-1" "<BHCE_TOKEN_KEY>"))) = "id-1".
Proof.
  refine (proj1 (network_calls_use_resolved_settings example_world
            (mkArgs "data" None (Some EmptyString) (Some "id-1") 250 50) []
            (GetVersion (mkClient "<BHCE_SCHEME>" "<BHCE_DOMAIN>" "<BHCE_PORT>"
                           (mkCredentials "id-1" "<BHCE_TOKEN_KEY>")))
            _ _ (or_introl eq_refl)) "id-1" eq_refl _).
  - vm_compute. tauto.
  - discriminate.
Defined.

(** ** What an archive leaves behind *)

Lemma extractable_prefix_all (zip_ref : archive) :
  forallb extractable zip_ref = true -> extractable_prefix zip_ref = zip_ref.
Proof.
  induction zip_ref as [|m rest IH]; [reflexivity|].
  cbn. intros H. apply andb_prop in H as [Hm Hrest].
  now rewrite Hm, IH.
Qed.







(** ** The paths of a directory listing *)

Lemma endswith_cons (c : ascii) (s suffix : string) :
  Py.endswith s suffix = true -> Py.endswith (String c s) suffix = true.
Proof.
  unfold Py.endswith. cbn [String.length]. intros H.
  apply andb_prop in H as [Hle Heq]. apply Nat.leb_le in Hle.
  apply andb_true_intro. split; [apply Nat.leb_le; lia|].
  rewrite Nat.sub_succ_l by exact Hle. exact Heq.
Qed.

Lemma endswith_app (a b suffix : string) :
  Py.endswith b suffix = true -> Py.endswith (a ++ b) suffix = true.
Proof.
  intros H. induction a as [|c a IH]; [exact H|].
  cbn [String.append]. now apply endswith_cons.
Qed.

Lemma path_join_endswith (root file suffix : string) :
  Py.endswith file suffix = true ->
  Py.endswith (Py.path_join root file) suffix = true.
Proof.
  intros H. unfold Py.path_join.
  destruct (Py.startswith file "/"); [exact H|].
  destruct (String.eqb root EmptyString || Py.endswith root "/").
  - now apply endswith_app.
  - apply endswith_app. now apply endswith_app.
Qed.

(** X8.  Every path that [list_files_in_directory] returns ends in
    [.json]: joining the name of a file to the directory it was found in
    keeps the suffix the name was selected for. *)
Theorem listed_paths_end_in_json (W : World) (directory : string) (fs : FS)
    (files : list string) :
  outcome_of (list_files_in_directory W directory fs) = Ok files ->
  Forall (fun p => Py.endswith p ".json" = true) files.
Proof.
  rewrite list_files_shape. cbn [outcome_of snd]. intros H. injection H as <-.
  apply Forall_forall. intros p Hp.
  apply in_json_paths in Hp
    as [root [dirs [names [file [_ [_ [Hj ->]]]]]]].
  now apply path_join_endswith.
Qed.

Lemma listed_paths_end_in_json_witness :
  Forall (fun p => Py.endswith p ".json" = true) ["data/a.json"; "data/sub/c.json"].
Proof.
  exact (listed_paths_end_in_json example_world "data" []
           ["data/a.json"; "data/sub/c.json"] eq_refl).
Defined.

(** ** More on loading *)

(** X9.  Whatever the platform's default encoding, a file whose bytes
    decode under [utf-8-sig] to a text that parses is always loaded: either
    the first attempt already yields a document, or the second attempt
    yields the document of that text. *)
Theorem load_file_rescued_by_utf8_sig (W : World) (f : string) (fs : FS)
    (b : bytes) (text : list N) (d : json) :
  fs_read fs f = Some b ->
  utf8_sig_decode b = Some text ->
  parses W text = Some d ->
  succeeded (loaded W fs f) = true
  /\ (succeeded (attempt W fs f EncDefault) = false ->
      load_file W f fs
      = ([OpenFile f EncDefault; OpenFile f EncUtf8Sig], fs, Ok d)).
Proof.
  intros Hb Ht Hp.
  assert (Hs : attempt W fs f EncUtf8Sig = Ok d).
  { apply attempt_ok_iff. exists b, text. now repeat split. }
  unfold loaded. rewrite load_file_shape.
  destruct (attempt W fs f EncDefault) as [d'|e].
  - split; [reflexivity | discriminate].
  - rewrite Hs. split; [reflexivity | reflexivity].
Qed.

Lemma load_file_rescued_by_utf8_sig_witness :
  succeeded (loaded example_world [("bom.json", bom ++ [123; 125]%N)] "bom.json")
  = true.
Proof.
  exact (proj1 (load_file_rescued_by_utf8_sig example_world "bom.json"
                  [("bom.json", bom ++ [123; 125]%N)] (bom ++ [123; 125]%N)
                  [123; 125]%N (JObj []) eq_refl eq_refl eq_refl)).
Defined.

(** ** What a run does to the filesystem *)

(** X10.  A run leaves the filesystem as it found it, unless the location
    ends in [.zip] and the run reached the extraction of the archive:
    loading and submitting never write, and a run on a directory, or one
    that stops at the URL override or at the credential test, changes
    nothing. *)
Theorem run_writes_only_by_extraction (W : World) (args : Args) (fs : FS) :
  fs_of (main W args fs) = fs
  \/ (Py.endswith (location args) ".zip" = true
      /\ In (ZipExtractAll (location args)) (trace_of (main W args fs))).
Proof.
  destruct (main_cases W args fs)
    as [E | [E | [[ep [Hep [Hv E]]]
                 | [ep [v [td [fs' [files [Hep [Hv [Hd E]]]]]]]]]]];
    rewrite E; try (left; reflexivity).
  cbn [fs_of trace_of fst snd].
  unfold discover in Hd. destruct (Py.endswith (location args) ".zip").
  - rewrite extract_zip_shape in Hd.
    destruct (zip_at W (location args)) as [zip_ref|].
    + right. split; [reflexivity|].
      apply in_or_app. right. apply in_or_app. right. apply in_or_app. left.
      destruct (forallb extractable zip_ref); injection Hd as <- _ _;
        right; now left.
    + left. now injection Hd.
  - left. rewrite list_files_shape in Hd. now injection Hd.
Qed.

Lemma run_writes_only_by_extraction_witness :
  fs_of (main example_world (example_args "data" None 250 50)
           [("data/a.json", [123; 125]%N)])
  = [("data/a.json", [123; 125]%N)].
Proof.
  destruct (run_writes_only_by_extraction example_world
              (example_args "data" None 250 50)
              [("data/a.json", [123; 125]%N)]) as [H | [H _]].
  - exact H.
  - discriminate H.
Defined.

(** ** A submission that fails *)

(** X11.  The loop has no handler around the submission: when the client
    raises on the document of a file reached after an error-free prefix of
    the discovered files, the run ends there without completing, and the
    last file events of the run are the [open] calls of that file and that
    submission; nothing discovered after it is opened or submitted. *)
Theorem failed_submission_ends_run (W : World) (args : Args) (fs fs' : FS)
    (ep : Endpoint) (version : VersionInfo) (td : list event)
    (pre post : list string) (f : string) (d : json) :
  resolve_url W args fs = ([], fs, Ok ep) ->
  get_version W (client_of W args ep) = Some version ->
  discover W (location args) fs = (td, fs', Ok (pre ++ f :: post)) ->
  (forall g, In g pre ->
     file_outcome W (client_of W args ep)
       (or_default (chunkobjects args) 250)
       (or_default (chunksinjob args) 50) fs' g = Ok tt) ->
  loaded W fs' f = Ok d ->
  chunk_and_submit_data W (client_of W args ep) d
    (or_default (chunkobjects args) 250)
    (or_default (chunksinjob args) 50) = false ->
  succeeded (outcome_of (main W args fs)) = false
  /\ filter is_file_event (trace_of (main W args fs))
     = flat_map
         (file_io W (client_of W args ep)
            (or_default (chunkobjects args) 250)
            (or_default (chunksinjob args) 50) fs') pre
       ++ opens W fs' f
       ++ [Submit (client_of W args ep) d
             (or_default (chunkobjects args) 250)
             (or_default (chunksinjob args) 50)].
Proof.
  intros Hep Hv Hd Hpre Hl Hrej.
  set (client := client_of W args ep) in *.
  set (c := or_default (chunkobjects args) 250) in *.
  set (j := or_default (chunksinjob args) 50) in *.
  assert (Hf : file_outcome W client c j fs' f = Raise ClientError).
  { unfold file_outcome. now rewrite Hl, Hrej. }
  destruct (reached_until_failure (file_outcome W client c j fs') pre post f
              ClientError Hpre Hf) as [Hr Ho].
  rewrite (main_shape_resolved W args fs ep Hep). fold client. rewrite Hv, Hd.
  cbn [trace_of fs_of outcome_of fst snd].
  unfold process_files. fold client c j. rewrite for_each_process_shape.
  cbn [trace_of fs_of outcome_of fst snd].
  split; [now rewrite Ho|].
  rewrite app_assoc, filter_app.
  rewrite (proj1 (header_no_file_event ep client version)), filter_app.
  assert (Ht : td = trace_of (discover W (location args) fs)) by now rewrite Hd.
  rewrite Ht, discover_no_file_event. cbn [app].
  rewrite filter_flat_map, Hr, flat_map_app. f_equal.
  - apply flat_map_ext. intros g. apply filter_file_events.
  - cbn [flat_map]. rewrite app_nil_r, filter_file_events.
    unfold file_io. now rewrite Hl.
Qed.

Lemma failed_submission_ends_run_witness :
  succeeded
    (outcome_of (main refusing_world (example_args "data.zip" None 250 50) []))
  = false.
Proof.
  refine (proj1 (failed_submission_ends_run refusing_world
            (example_args "data.zip" None 250 50) []
            (extracted [("users.json", ZFile [123; 125]%N);
                        ("groups.json", ZFile [123; 125]%N)] [])
            (mkEndpoint "<BHCE_DOMAIN>" "<BHCE_PORT>" "<BHCE_SCHEME>")
            (mkVersion "v2" "5.0.0")
            [ZipOpen "data.zip"; ZipExtractAll "data.zip"]
            [] ["groups.json"] "users.json" (JObj [])
            eq_refl eq_refl eq_refl _ eq_refl eq_refl)).
  intros g [].
Defined.

(** ** A run with nothing to process *)

(** X12.  When discovery yields no file the run completes at once: after
    the credential test it performs the events of the discovery and
    nothing else, opens and submits nothing, and ends normally.  This is
    what happens, without any message, on a location that does not end in
    [.zip] and cannot be listed as a directory. *)
Theorem empty_discovery_completes (W : World) (args : Args) (fs : FS)
    (ep : Endpoint) (version : VersionInfo) :
  resolve_url W args fs = ([], fs, Ok ep) ->
  get_version W (client_of W args ep) = Some version ->
  (forall td fs',
      discover W (location args) fs = (td, fs', Ok []) ->
      main W args fs
      = (preamble ep ++ probe_ok (client_of W args ep) version ++ td, fs', Ok tt))
  /\ (Py.endswith (location args) ".zip" = false ->
      dir_at W (location args) = None ->
      main W args fs
      = (preamble ep ++ probe_ok (client_of W args ep) version
         ++ [Walk (location args)], fs, Ok tt)).
Proof.
  intros Hep Hv.
  assert (Hgen : forall td fs',
             discover W (location args) fs = (td, fs', Ok []) ->
             main W args fs
             = (preamble ep ++ probe_ok (client_of W args ep) version ++ td,
                fs', Ok tt)).
  { intros td fs' Hd.
    rewrite (main_shape_resolved W args fs ep Hep), Hv, Hd.
    cbn [trace_of fs_of outcome_of fst snd process_files for_each ret].
    now rewrite app_nil_r. }
  split; [exact Hgen|].
  intros Hsuffix Hdir. apply Hgen.
  unfold discover. rewrite Hsuffix, list_files_shape.
  unfold walked_from. now rewrite Hdir.
Qed.

Lemma empty_discovery_completes_witness :
  main example_world (example_args "missing" None 250 50) []
  = (preamble (mkEndpoint "<BHCE_DOMAIN>" "<BHCE_PORT>" "<BHCE_SCHEME>")
     ++ probe_ok
          (client_of example_world (example_args "missing" None 250 50)
             (mkEndpoint "<BHCE_DOMAIN>" "<BHCE_PORT>" "<BHCE_SCHEME>"))
          (mkVersion "v2" "5.0.0")
     ++ [Walk "missing"], [], Ok tt).
Proof.
  exact (proj2 (empty_discovery_completes example_world
                  (example_args "missing" None 250 50) []
                  (mkEndpoint "<BHCE_DOMAIN>" "<BHCE_PORT>" "<BHCE_SCHEME>")
                  (mkVersion "v2" "5.0.0") eq_refl eq_refl)
           eq_refl eq_refl).
Defined.
